(** * PPT generation pipeline: registry extraction, beautifier, injector

    A shallow embedding of the deterministic core of the pipeline
    (pipeline_1_indexing/parser.py, pipeline_1_indexing/registry_builder.py,
    pipeline_2_generation/beautifier.py, pipeline_2_generation/injector.py and
    utils/ppt_helper.py) together with the properties the specification
    states about it.

    Python values are modelled as follows.
    - [str] is a list of Unicode code points ([N]); string literals of the
      source are written [lit "..."].
    - [float] is IEEE-754 binary64 ([PrimFloat.float]), with the operations
      of the kernel; decimal literals of the source are written as the
      hexadecimal binary64 value Python reads them as.
    - [int] is [Z] (indices that are never negative are [nat]).
    - a [dict] whose order matters is an association list, updated with
      [Dict.set] (overwrite in place, or append).
    - [print] is a list of structured log events. *)

From Stdlib Require Import String Ascii List ZArith NArith Bool Lia Floats.
From Stdlib Require Import DecimalString.
From Equations Require Import Equations.
Import ListNotations.

Set Implicit Arguments.

(* ===================================================================== *)
(** ** Python built-ins *)
(* ===================================================================== *)

Module Py.

Definition str := list N.

(** A source literal: one code point per character of the literal. *)
Definition lit (s : string) : str := map N_of_ascii (list_ascii_of_string s).

Definition len (s : str) : nat := List.length s.

(** [s[i]] for an index known to be in range. *)
Definition getitem (s : str) (i : nat) : N := nth i s 0%N.

Fixpoint eqb (s t : str) : bool :=
  match s, t with
  | [], [] => true
  | c :: s', d :: t' => (c =? d)%N && eqb s' t'
  | _, _ => false
  end.

Fixpoint prefixb (p s : str) : bool :=
  match p, s with
  | [], _ => true
  | c :: p', d :: s' => (c =? d)%N && prefixb p' s'
  | _ :: _, [] => false
  end.

(** [s.startswith(p, i)]. *)
Definition startswith (s p : str) (i : nat) : bool := prefixb p (skipn i s).

(** [needle in hay]. *)
Fixpoint contains (needle hay : str) : bool :=
  prefixb needle hay ||
  match hay with
  | [] => false
  | _ :: hay' => contains needle hay'
  end.

(** [sep.join(parts)]. *)
Fixpoint join (sep : str) (parts : list str) : str :=
  match parts with
  | [] => []
  | [p] => p
  | p :: rest => p ++ sep ++ join sep rest
  end.

(** [str.isspace] on one code point: the Unicode white space of CPython. *)
Definition isspace (c : N) : bool :=
  ((9 <=? c) && (c <=? 13) || (28 <=? c) && (c <=? 32)
   || (c =? 133) || (c =? 160) || (c =? 5760)
   || (8192 <=? c) && (c <=? 8202)
   || (c =? 8232) || (c =? 8233) || (c =? 8239) || (c =? 8287)
   || (c =? 12288))%N.

Fixpoint lstrip (s : str) : str :=
  match s with
  | c :: s' => if isspace c then lstrip s' else s
  | [] => []
  end.

(** [s.strip()]. *)
Definition strip (s : str) : str := rev (lstrip (rev (lstrip s))).

Fixpoint split_from (s cur : str) : list str :=
  match s with
  | [] => match cur with [] => [] | _ => [cur] end
  | c :: s' =>
      if isspace c
      then match cur with [] => split_from s' [] | _ => cur :: split_from s' [] end
      else split_from s' (cur ++ [c])
  end.

(** [s.split()]: the maximal runs of non-space characters. *)
Definition split (s : str) : list str := split_from s [].

Definition ascii_isalnum (c : N) : bool :=
  ((48 <=? c) && (c <=? 57) || (65 <=? c) && (c <=? 90)
   || (97 <=? c) && (c <=? 122))%N.

Definition isascii (s : str) : bool := forallb (fun c => (c <? 128)%N) s.

Definition ascii_lower (c : N) : N :=
  if ((65 <=? c) && (c <=? 90))%N then (c + 32)%N else c.

(** [str(z)] for an integer. *)
Definition str_of_Z (z : Z) : str := lit (NilEmpty.string_of_int (Z.to_int z)).

(** The objects content fields carry. *)
#[warnings="-register-all"]
Inductive value :=
| VNone
| VStr (s : str)
| VList (items : list value)
| VOther (id : N).

(** What the interpreter and its libraries decide outside this repository:
    the Unicode tables beyond ASCII, [int()] on a string, [str()] of an
    object that is neither a string nor [None], and the regular expression
    engine ([re.search] with [re.IGNORECASE]). *)
Class Runtime := {
  uni_isalnum : N -> bool;
  uni_lower : str -> str;
  int_of_str : str -> option Z;
  str_of_object : value -> str;
  re_search_ignorecase : str -> str -> bool
}.

Section WithRuntime.
Context {rt : Runtime}.

(** [c.isalnum()]. *)
Definition isalnum (c : N) : bool :=
  if (c <? 128)%N then ascii_isalnum c else uni_isalnum c.

(** [s.lower()]. *)
Definition lower (s : str) : str :=
  if isascii s then map ascii_lower s else uni_lower s.

(** [str(v)]. *)
Definition to_str (v : value) : str :=
  match v with
  | VStr s => s
  | VNone => lit "None"
  | _ => str_of_object v
  end.

End WithRuntime.

(** Truncation of a float towards zero, [int(x)]; [None] where Python
    raises (infinities and NaN). *)
Definition int_of_float (x : float) : option Z :=
  match Prim2SF x with
  | S754_zero _ => Some 0%Z
  | S754_finite s m e =>
      let a := if (0 <=? e)%Z then (Z.pos m * 2 ^ e)%Z
               else Z.shiftr (Z.pos m) (- e) in
      Some (if s then (- a)%Z else a)
  | _ => None
  end.

(** An integer as a float, rounded to nearest even as Python does in mixed
    arithmetic. *)
Definition float_of_Z (z : Z) : float :=
  SF2Prim (binary_normalize prec emax z 0 false).

End Py.

(** Ordered dictionaries. *)
Module Dict.

Definition t (V : Type) := list (Py.str * V).

Fixpoint get {V} (d : t V) (k : Py.str) : option V :=
  match d with
  | [] => None
  | (k', v) :: d' => if Py.eqb k' k then Some v else get d' k
  end.

Definition mem {V} (d : t V) (k : Py.str) : bool :=
  match get d k with Some _ => true | None => false end.

(** [d[k] = v]. *)
Fixpoint set {V} (d : t V) (k : Py.str) (v : V) : t V :=
  match d with
  | [] => [(k, v)]
  | (k', v') :: d' => if Py.eqb k' k then (k', v) :: d' else (k', v') :: set d' k v
  end.

End Dict.

(* ===================================================================== *)
(** ** pipeline_2_generation/beautifier.py *)
(* ===================================================================== *)

Module Beautifier.
Import Py.

Definition ROLE_TITLE := lit "TITLE".
Definition ROLE_CONTENT := lit "CONTENT".

Definition FONT_SIZE_TITLE_SLIDE_MAIN : Z := 44.
Definition FONT_SIZE_TITLE_SLIDE_SUBTITLE : Z := 28.
Definition FONT_SIZE_TITLE_SLIDE_FOOTER : Z := 11.
Definition FONT_SIZE_TITLE_LARGE : Z := 32.
Definition FONT_SIZE_TITLE_SMALL : Z := 28.
Definition FONT_SIZE_BODY_LARGE : Z := 22.
Definition FONT_SIZE_BODY_DEFAULT : Z := 18.
Definition FONT_SIZE_CONTENT_LARGE : Z := 16.
Definition FONT_SIZE_CONTENT_DEFAULT : Z := 14.
Definition FONT_SIZE_FOOTER : Z := 10.
Definition FONT_SIZE_FALLBACK : Z := 16.

(** 0.05, 0.3 and 0.15 as binary64. *)
Definition AREA_THRESHOLD_TITLE : float := 0x1.999999999999ap-5.
Definition AREA_THRESHOLD_BODY : float := 0x1.3333333333333p-2.
Definition AREA_THRESHOLD_CONTENT : float := 0x1.3333333333333p-3.

(** 0.1, (8, 72), 0.5, 0.6, 1.1 and 1.2 as binary64. *)
Definition TEXT_PADDING_RATIO : float := 0x1.999999999999ap-4.
Definition FONT_SIZE_RANGE : float * float := (8, 72)%float.
Definition FIT_PRECISION : float := 0.5.
Definition CHAR_WIDTH_RATIO : float := 0x1.3333333333333p-1.
Definition BOLD_WIDTH_MULTIPLIER : float := 0x1.199999999999ap+0.
Definition LINE_HEIGHT_RATIO : float := 0x1.3333333333333p+0.

Definition MD_BOLD : str := lit "**".
Definition MD_ITALIC : N := 42.
Definition BACKSLASH : N := 92.

(** A styled run, [{"text": ..., "bold": ..., "italic": ...}]. *)
Record Run := mkRun { text : str; bold : bool; italic : bool }.

Section WithRuntime.
Context {rt : Runtime}.

Definition _is_boundary (s : str) (idx : nat) : bool :=
  if (idx <=? 0) || (len s <=? idx) then true
  else negb (isalnum (getitem s (idx - 1)) && isalnum (getitem s idx)).

(** The local [flush]: the buffer becomes a run with the current flags;
    the caller empties the buffer. *)
Definition flush (bold_on italic_on : bool) (buf : str) (runs : list Run)
  : list Run :=
  match buf with
  | [] => runs
  | _ => runs ++ [mkRun buf bold_on italic_on]
  end.

(** The [while i < n] loop of [parse_markdown], from index [i] with the
    flags, the buffer and the runs collected so far; it returns them as
    they stand when the loop exits. *)
Equations? scan (s : str) (i : nat) (bold_on italic_on : bool) (buf : str)
  (runs : list Run) : bool * bool * str * list Run by wf (len s - i) lt :=
scan s i bold_on italic_on buf runs with le_lt_dec (len s) i => {
  | left _ := (bold_on, italic_on, buf, runs);
  | right Hlt :=
      let ch := getitem s i in
      if (ch =? BACKSLASH)%N && (i + 1 <? len s) then
        scan s (i + 2) bold_on italic_on (buf ++ [getitem s (i + 1)]) runs
      else if startswith s MD_BOLD i
              && (_is_boundary s i && _is_boundary s (i + len MD_BOLD)) then
        scan s (i + len MD_BOLD) (negb bold_on) italic_on []
             (flush bold_on italic_on buf runs)
      else if (ch =? MD_ITALIC)%N
              && (_is_boundary s i && _is_boundary s (i + 1)) then
        scan s (i + 1) bold_on (negb italic_on) []
             (flush bold_on italic_on buf runs)
      else scan s (i + 1) bold_on italic_on (buf ++ [ch]) runs }.
Proof. all: unfold len in *; cbn; lia. Qed.

Definition plain (s : str) : Run := mkRun s false false.

Definition parse_markdown (txt : option str) : list Run :=
  match txt with
  | None => [plain []]
  | Some [] => [plain []]
  | Some s =>
      let '(bold_on, italic_on, buf, runs) := scan s 0 false false [] [] in
      let runs := flush bold_on italic_on buf runs in
      if bold_on || italic_on then [plain (concat (map text runs))]
      else match runs with
           | [] => [plain []]
           | _ => runs
           end
  end.

(** [_safe_int] on a dictionary key. *)
Definition _safe_int (key : str) : option Z := int_of_str key.

End WithRuntime.

Local Open Scope float_scope.

Definition _calculate_chord_width (y_offset radius center_y : float) : float :=
  if radius <=? 0 then 0
  else
    let dy := abs (y_offset - center_y) in
    if radius <=? dy then 0
    else
      let width := 2 * sqrt (radius * radius - dy * dy) in
      if 0 <? width then width else 0.

(** [sum(len(w) + 1 for w in current_line)]. *)
Definition line_chars (current_line : list str) : Z :=
  fold_left (fun acc w => (acc + (Z.of_nat (len w) + 1))%Z) current_line 0%Z.

(** The [for word in words] loop of one binary search step: the line being
    filled, its vertical position, and whether the words fit.  The loop
    leaves by [break] as soon as a line falls below the circle. *)
Fixpoint wrap_words (mid_font line_height effective_radius : float)
  (words current_line : list str) (current_y : float)
  : list str * float * bool :=
  match words with
  | [] => (current_line, current_y, true)
  | word :: rest =>
      let word_width :=
        float_of_Z (Z.of_nat (len word) + 1) * (mid_font * CHAR_WIDTH_RATIO) / 960 in
      let available_width :=
        _calculate_chord_width (current_y + line_height / 2) effective_radius 0 in
      if match current_line with [] => false | _ => true end
         && (available_width
             <? float_of_Z (line_chars current_line) * (mid_font * CHAR_WIDTH_RATIO) / 960)
      then
        let current_y := current_y + line_height in
        if effective_radius <? current_y + line_height
        then ([word], current_y, false)
        else wrap_words mid_font line_height effective_radius rest [word] current_y
      else
        wrap_words mid_font line_height effective_radius rest
                   (current_line ++ [word]) current_y
  end.

(** One candidate size: does the text, wrapped at [mid_font], fit? *)
Definition fits_at (txt : str) (effective_radius mid_font : float) : bool :=
  let line_height := (mid_font * LINE_HEIGHT_RATIO) / 720 in
  let words := split txt in
  let '(current_line, current_y, fits) :=
    wrap_words mid_font line_height effective_radius words [] (- effective_radius) in
  if match current_line with [] => false | _ => true end && fits
  then negb (effective_radius <? current_y + line_height)
  else fits.

(** The [while max_font - min_font > FIT_PRECISION] loop; [None] when the
    iteration budget is used up before the loop exits. *)
Fixpoint search (fuel : nat) (fits : float -> bool)
  (min_font max_font best_fit : float) : option float :=
  if FIT_PRECISION <? max_font - min_font then
    match fuel with
    | O => None
    | S fuel' =>
        let mid_font := (min_font + max_font) / 2 in
        if fits mid_font
        then search fuel' fits mid_font max_font mid_font
        else search fuel' fits min_font mid_font best_fit
    end
  else Some best_fit.

(** [runs] takes no part in the fit; the argument is kept as in the source. *)
Definition _fit_text_in_circle (txt : str) (runs : list Run)
  (radius padding_ratio : float) : option Z :=
  let min_font := fst FONT_SIZE_RANGE in
  let max_font := snd FONT_SIZE_RANGE in
  if match txt with [] => true | _ => false end || (radius <=? 0)
  then int_of_float min_font
  else
    let effective_radius := radius * (1 - padding_ratio) in
    if effective_radius <=? 0 then int_of_float min_font
    else
      match search 64 (fits_at txt effective_radius) min_font max_font min_font with
      | Some best_fit => int_of_float best_fit
      | None => None
      end.


Section WithRuntime.
Context {rt : Runtime}.

(** [role_hint or ""]. *)
Definition or_empty (role_hint : option str) : str :=
  match role_hint with Some r => r | None => [] end.

Definition _determine_font_size (role_hint : option str) (area_ratio : float)
  (slide_role : str) : Z :=
  let role := lower (or_empty role_hint) in
  if eqb slide_role ROLE_TITLE then
    if contains (lit "title") role || contains (lit "header") role
       || contains (lit "headline") role
    then FONT_SIZE_TITLE_SLIDE_MAIN
    else if contains (lit "subtitle") role || contains (lit "body") role
    then FONT_SIZE_TITLE_SLIDE_SUBTITLE
    else if contains (lit "footer") role
    then FONT_SIZE_TITLE_SLIDE_FOOTER
    else FONT_SIZE_TITLE_LARGE
  else
    if contains (lit "title") role || contains (lit "header") role
       || contains (lit "headline") role
    then if AREA_THRESHOLD_TITLE <? area_ratio
         then FONT_SIZE_TITLE_LARGE else FONT_SIZE_TITLE_SMALL
    else if contains (lit "body") role
    then if AREA_THRESHOLD_BODY <? area_ratio
         then FONT_SIZE_BODY_LARGE else FONT_SIZE_BODY_DEFAULT
    else if contains (lit "content") role
    then if AREA_THRESHOLD_CONTENT <? area_ratio
         then FONT_SIZE_CONTENT_LARGE else FONT_SIZE_CONTENT_DEFAULT
    else if contains (lit "footer") role
    then FONT_SIZE_FOOTER
    else FONT_SIZE_FALLBACK.

Definition any_in (keys : list str) (role : str) : bool :=
  existsb (fun key => contains key role) keys.

Definition _alignment_for_role (role_hint semantic_role slide_role : option str)
  : option str :=
  if match slide_role with Some r => eqb r ROLE_TITLE | None => false end
     || match semantic_role with Some r => eqb r (lit "title") | None => false end
  then Some (lit "CENTER")
  else
    let role := lower (or_empty role_hint) in
    if any_in [lit "title"; lit "header"; lit "headline"; lit "section-title";
               lit "tagline"; lit "caption"; lit "quote"; lit "center"] role
    then Some (lit "CENTER")
    else if any_in [lit "number"; lit "value"; lit "metric"; lit "right"] role
    then Some (lit "RIGHT")
    else None.

End WithRuntime.

(** *** Registry and manifest data, as the beautifier reads it *)

(** A slot's ["geometry"] dictionary; a missing key is [None]. *)
Record Geometry := {
  area_ratio : option float;
  is_circular : option bool;
  radius : option float
}.

(** A key of a dictionary that may be missing, [null], or hold a value. *)
Inductive field (A : Type) :=
| Missing
| Null
| Value (a : A).
Arguments Missing {A}.
Arguments Null {A}.

(** Slot metadata: an entry of a layout's ["slots"] or of a slide's
    ["_semantic_mapping"]. *)
Record Slot := {
  slot_id : option Z;
  role_hint : field str;
  geometry : Geometry;
  max_chars : option Z
}.

Record Layout := {
  layout_index : Z;
  layout_name : option str;
  slots : list Slot
}.

(** The slide's ["content"]: a dictionary, a falsy value (missing, [None],
    an empty container), or some other object. *)
Inductive Content :=
| ContentDict (items : Dict.t value)
| ContentFalsy
| ContentOther.

(** The background specification is carried through untouched. *)
Record Slide (B : Type) := {
  s_layout_index : option Z;
  s_slide_role : option str;
  s_content : Content;
  s_background_image : option B;
  s_semantic_mapping : Dict.t (list Slot)
}.

(** The Style Specification of one field. *)
Record Style := {
  runs : option (list Run);
  bullets : option (list (list Run));
  font_size : option Z;
  alignment : option str;
  semantic_role : option str;
  vertical_anchor : option str
}.

Record Styled (B : Type) := {
  o_layout_index : Z;
  o_content : Dict.t Style;
  o_slide_role : str;
  o_background_image : option B;
  o_is_semantic : bool
}.

(** What the beautifier prints. *)
Inductive Event :=
| UnknownLayout (asked : option Z) (fallback : Z) (fallback_name : option str)
| ContentNotDict (slide_idx : nat)
| SemanticSlide (slide_no : nat)
| SkippedImageQuery
| SkippedNoSlotId (semantic_role : str)
| ExceedsMaxChars (slot_key : str) (chars : nat) (max_chars : Z)
| CircularFit (slot_key : str) (font_size : Z) (radius : float)
| CircularMissingRadius (slot_key : str)
| StyledSlides (count : nat).

Inductive Error :=
| MissingKeys
| NoLayouts
| CircleFitDiverged.

(** The settings of src/config.py, read from the environment at import. *)
Class Config := {
  FORCE_FONT_SIZE_LAYOUTS : list str;
  ENABLE_AUTOFIT_ROLES : list str
}.

Definition mem_str (x : str) (l : list str) : bool := existsb (eqb x) l.

Section WithRuntime.
Context {rt : Runtime} {cfg : Config}.

Definition field_or {A} (f : field A) (default : option A) : option A :=
  match f with
  | Missing => default
  | Null => None
  | Value a => Some a
  end.

(** 0.1, the default of [geometry.get('area_ratio', 0.1)]. *)
Definition DEFAULT_AREA_RATIO : float := 0x1.999999999999ap-4.

Definition area_ratio_of (g : Geometry) : float :=
  match area_ratio g with Some a => a | None => DEFAULT_AREA_RATIO end.

(** One iteration of the loop of [_beautify_semantic_content]. *)
Definition beautify_semantic_field (layout : Layout) (slide_role : str)
  (semantic_mapping : Dict.t (list Slot))
  (acc : Dict.t Style * list Event) (item : str * value)
  : Dict.t Style * list Event :=
  let '(styled_content, log) := acc in
  let '(semantic_role, raw_content) := item in
  if startswith semantic_role (lit "_") 0 then acc
  else if eqb semantic_role (lit "image_query")
  then (styled_content, log ++ [SkippedImageQuery])
  else
    match Dict.get semantic_mapping semantic_role with
    | None | Some [] => acc
    | Some (slot :: _) =>
        match slot_id slot with
        | None => (styled_content, log ++ [SkippedNoSlotId semantic_role])
        | Some sid =>
            let geometry := geometry slot in
            let role_hint := field_or (role_hint slot) (Some semantic_role) in
            let font_size :=
              if mem_str (or_empty (layout_name layout)) FORCE_FONT_SIZE_LAYOUTS
              then Some (_determine_font_size role_hint (area_ratio_of geometry)
                                              slide_role)
              else None in
            let alignment :=
              _alignment_for_role role_hint (Some semantic_role) (Some slide_role) in
            let anchor :=
              if eqb slide_role ROLE_TITLE && eqb semantic_role (lit "title")
              then Some (lit "MIDDLE") else None in
            let spec :=
              match eqb semantic_role (lit "bullets"), raw_content with
              | true, VList items =>
                  {| runs := None;
                     bullets :=
                       Some (map (fun bullet_text =>
                                    parse_markdown (Some (to_str bullet_text)))
                                 items);
                     font_size := font_size; alignment := alignment;
                     semantic_role := Some semantic_role;
                     vertical_anchor := anchor |}
              | _, _ =>
                  {| runs := Some (parse_markdown (Some (to_str raw_content)));
                     bullets := None;
                     font_size := font_size; alignment := alignment;
                     semantic_role := Some semantic_role;
                     vertical_anchor := anchor |}
              end in
            (Dict.set styled_content (str_of_Z sid) spec, log)
        end
    end.

Definition _beautify_semantic_content (semantic_content : Dict.t value)
  (layout : Layout) (slide_role : str) (semantic_mapping : Dict.t (list Slot))
  : Dict.t Style * list Event :=
  fold_left (beautify_semantic_field layout slide_role semantic_mapping)
            semantic_content ([], []).

(** [slot_meta_by_id]: the last slot with a given integer id wins. *)
Definition slot_meta_by_id (slots_meta : list Slot) (sid : option Z) : option Slot :=
  match sid with
  | None => None
  | Some z =>
      find (fun sm => match slot_id sm with Some z' => (z' =? z)%Z | None => false end)
           (rev slots_meta)
  end.

(** One iteration of the legacy loop over [slide_content.items()]; the
    result is an error only if the circle fit does not come back. *)
Definition beautify_slot (layout : Layout) (slide_role : str)
  (acc : Dict.t Style * list Event) (item : str * value)
  : Error + Dict.t Style * list Event :=
  let '(styled_content, log) := acc in
  let '(slot_key, raw_text) := item in
  let slot_id_int := _safe_int slot_key in
  let slot_meta := slot_meta_by_id (slots layout) slot_id_int in
  let text_str := match raw_text with VNone => [] | _ => to_str raw_text end in
  let log :=
    match slot_meta with
    | Some sm =>
        match max_chars sm with
        | Some mc =>
            if negb (mc =? 0)%Z && (mc <? Z.of_nat (len text_str))%Z
            then log ++ [ExceedsMaxChars slot_key (len text_str) mc]
            else log
        | None => log
        end
    | None => log
    end in
  let runs := parse_markdown (Some text_str) in
  let sized : Error + (Z * option str * list Event) :=
    match slot_meta with
    | Some sm =>
        let role_hint := field_or (role_hint sm) (Some []) in
        let geometry := geometry sm in
        let area_ratio := area_ratio_of geometry in
        let alignment := _alignment_for_role role_hint None None in
        if match is_circular geometry with Some b => b | None => false end then
          match radius geometry with
          | Some r =>
              if negb (r =? 0)%float && (0 <? r)%float then
                match _fit_text_in_circle text_str runs r TEXT_PADDING_RATIO with
                | Some font_size =>
                    inr (font_size, alignment, log ++ [CircularFit slot_key font_size r])
                | None => inl CircleFitDiverged
                end
              else inr (_determine_font_size role_hint area_ratio slide_role,
                        alignment, log ++ [CircularMissingRadius slot_key])
          | None => inr (_determine_font_size role_hint area_ratio slide_role,
                         alignment, log ++ [CircularMissingRadius slot_key])
          end
        else inr (_determine_font_size role_hint area_ratio slide_role, alignment, log)
    | None => inr (FONT_SIZE_FALLBACK, Some (lit "LEFT"), log)
    end in
  match sized with
  | inl e => inl e
  | inr (font_size, alignment, log) =>
      inr (Dict.set styled_content slot_key
             {| runs := Some runs; bullets := None; font_size := Some font_size;
                alignment := alignment; semantic_role := None;
                vertical_anchor := None |},
           log)
  end.

Fixpoint beautify_slots (layout : Layout) (slide_role : str)
  (items : Dict.t value) (acc : Dict.t Style * list Event)
  : Error + Dict.t Style * list Event :=
  match items with
  | [] => inr acc
  | item :: rest =>
      match beautify_slot layout slide_role acc item with
      | inl e => inl e
      | inr acc' => beautify_slots layout slide_role rest acc'
      end
  end.

(** [layout_by_idx.get(layout_idx)]: the dictionary comprehension keeps the
    last layout of each index. *)
Definition layout_by_idx (layouts : list Layout) (layout_idx : option Z)
  : option Layout :=
  match layout_idx with
  | None => None
  | Some z => find (fun l => (layout_index l =? z)%Z) (rev layouts)
  end.

Definition SEMANTIC_KEYS : list str :=
  [lit "title"; lit "bullets"; lit "body"; lit "image_query"; lit "footer"].

(** The first half of the loop body: the layout for the slide, its index,
    and the warning printed when the first layout stands in. *)
Definition choose_layout (layouts : list Layout) (default_layout : Layout)
  (layout_idx : option Z) : Layout * Z * list Event :=
  match layout_by_idx layouts layout_idx with
  | Some l => (l, match layout_idx with Some z => z | None => layout_index l end, [])
  | None =>
      (default_layout, layout_index default_layout,
       [UnknownLayout layout_idx (layout_index default_layout)
                      (layout_name default_layout)])
  end.

(** The second half: the content of the slide styled against the layout. *)
Definition style_slide {B} (layout : Layout) (layout_idx : Z) (log : list Event)
  (slide_idx : nat) (slide : Slide B) : Error + Styled B * list Event :=
  let slide_role :=
    match s_slide_role slide with Some r => r | None => ROLE_CONTENT end in
  let '(slide_content, log) :=
    match s_content slide with
    | ContentDict items => (items, log)
    | ContentFalsy => ([], log)
    | ContentOther => ([], log ++ [ContentNotDict slide_idx])
    end in
  let is_semantic := existsb (Dict.mem slide_content) SEMANTIC_KEYS in
  if is_semantic then
    let '(styled_content, log') :=
      _beautify_semantic_content slide_content layout slide_role
                                 (s_semantic_mapping slide) in
    inr ({| o_layout_index := layout_idx; o_content := styled_content;
            o_slide_role := slide_role;
            o_background_image := s_background_image slide;
            o_is_semantic := true |},
         log ++ [SemanticSlide (slide_idx + 1)] ++ log')
  else
    match beautify_slots layout slide_role slide_content ([], log) with
    | inl e => inl e
    | inr (styled_content, log) =>
        inr ({| o_layout_index := layout_idx; o_content := styled_content;
                o_slide_role := slide_role;
                o_background_image := s_background_image slide;
                o_is_semantic := false |},
             log)
    end.

(** The body of the loop over the manifest, for one slide. *)
Definition beautify_slide {B} (layouts : list Layout) (default_layout : Layout)
  (slide_idx : nat) (slide : Slide B) : Error + Styled B * list Event :=
  let '(layout, layout_idx, log) :=
    choose_layout layouts default_layout (s_layout_index slide) in
  style_slide layout layout_idx log slide_idx slide.

Fixpoint beautify_all {B} (layouts : list Layout) (default_layout : Layout)
  (slide_idx : nat) (manifest : list (Slide B))
  : Error + list (Styled B) * list Event :=
  match manifest with
  | [] => inr ([], [])
  | slide :: rest =>
      match beautify_slide layouts default_layout slide_idx slide with
      | inl e => inl e
      | inr (styled, log) =>
          match beautify_all layouts default_layout (S slide_idx) rest with
          | inl e => inl e
          | inr (beautified, log') => inr (styled :: beautified, log ++ log')
          end
      end
  end.

(** The state the node receives: either key may be missing. *)
Record State (B : Type) := {
  st_manifest : option (list (Slide B));
  st_registry : option (list Layout)
}.

Definition beautifier_node {B} (state : State B)
  : Error + list (Styled B) * list Event :=
  match st_manifest state, st_registry state with
  | Some manifest, Some layouts =>
      match layouts with
      | [] => inl NoLayouts
      | default_layout :: _ =>
          match beautify_all layouts default_layout 0 manifest with
          | inl e => inl e
          | inr (beautified, log) =>
              inr (beautified, log ++ [StyledSlides (List.length beautified)])
          end
      end
  | _, _ => inl MissingKeys
  end.

End WithRuntime.

End Beautifier.

(* ===================================================================== *)
(** ** pipeline_1_indexing/parser.py and registry_builder.py *)
(* ===================================================================== *)

Module Registry.
Import Py.
Local Open Scope float_scope.

(** A placeholder as [get_placeholder_metadata] reports it; a spatial
    property the shape does not carry is [None]. *)
Record RawShape := {
  raw_name : str;
  raw_type : str;
  raw_idx : Z;
  raw_left : option Z;
  raw_top : option Z;
  raw_width : option Z;
  raw_height : option Z;
  raw_shape_type : str
}.

(** The shape dictionary after [parse_template_node] has enriched it. *)
Record Shape := {
  name : str;
  type : str;
  idx : Z;
  norm_left : float;
  norm_top : float;
  norm_width : float;
  norm_height : float;
  area_ratio : float;
  is_circular : bool;
  radius : option float;
  ellipse_axes : option (float * float)
}.

(** [x or 0]. *)
Definition or_zero (x : option Z) : Z :=
  match x with Some z => z | None => 0%Z end.

(** [a / b] on integers, for [b] other than zero: the exact quotient,
    rounded once.  A zero numerator gives a zero of the sign of [b];
    otherwise the operands are lengths in EMU and products of two of them,
    below 2^53, so both are binary64 values and their float quotient is
    that rounding. *)
Definition truediv (a b : Z) : float :=
  if (a =? 0)%Z then (if (b <? 0)%Z then -0 else 0)
  else float_of_Z a / float_of_Z b.

(** [a / b if b > 0 else 0]. *)
Definition ratio (a b : Z) : float :=
  if (0 <? b)%Z then truediv a b else 0.

(** 0.01 as binary64. *)
Definition ELLIPSE_TOLERANCE : float := 0x1.47ae147ae147bp-7.

(** The body of the loop of [parse_template_node] over one layout's shapes. *)
Definition enrich (slide_width slide_height : Z) (shape : RawShape) : Shape :=
  let width := or_zero (raw_width shape) in
  let height := or_zero (raw_height shape) in
  let left := or_zero (raw_left shape) in
  let top := or_zero (raw_top shape) in
  let norm_width := ratio width slide_width in
  let norm_height := ratio height slide_height in
  let oval := Py.eqb (raw_shape_type shape) (lit "oval") in
  {| name := raw_name shape;
     type := raw_type shape;
     idx := raw_idx shape;
     norm_left := ratio left slide_width;
     norm_top := ratio top slide_height;
     norm_width := norm_width;
     norm_height := norm_height;
     area_ratio := ratio (width * height) (slide_width * slide_height);
     is_circular := oval;
     radius :=
       if oval
       then Some ((if norm_height <? norm_width then norm_height else norm_width) / 2)
       else None;
     ellipse_axes :=
       if oval && (ELLIPSE_TOLERANCE <? abs (norm_width - norm_height))
       then Some (norm_width / 2, norm_height / 2)
       else None |}.

Inductive RoleHint := title | footer | body | content.

Definition role_eqb (a b : RoleHint) : bool :=
  match a, b with
  | title, title | footer, footer | body, body | content, content => true
  | _, _ => false
  end.

(** The string the source returns for each role. *)
Definition role_name (r : RoleHint) : str :=
  match r with
  | title => lit "title"
  | footer => lit "footer"
  | body => lit "body"
  | content => lit "content"
  end.

(** 0.2, 0.8, 0.3, 0.1 and 0.05 as binary64. *)
Definition c0_2 : float := 0x1.999999999999ap-3.
Definition c0_8 : float := 0x1.999999999999ap-1.
Definition c0_3 : float := 0x1.3333333333333p-2.
Definition c0_1 : float := 0x1.999999999999ap-4.
Definition c0_05 : float := 0x1.999999999999ap-5.

Definition derive_role_hint (shape : Shape) : RoleHint :=
  let norm_top := norm_top shape in
  let norm_height := norm_height shape in
  let area_ratio := area_ratio shape in
  if (norm_top <? c0_2) && (norm_height <? c0_2) then title
  else if c0_8 <? norm_top then footer
  else if c0_3 <? area_ratio then body
  else if ((c0_2 <=? norm_top) && (norm_top <=? c0_8)) && (c0_1 <? area_ratio)
  then content
  else content.

Inductive Purpose :=
| TITLE_SLIDE
| VISUAL_SLIDE
| COMPARISON_SLIDE
| CONTENT_SLIDE
| GENERAL_CONTENT.

(** [sum(1 for s in enriched_shapes if s['role_hint'] == r)]. *)
Definition role_slots (r : RoleHint) (shapes : list Shape) : nat :=
  List.length (filter (fun s => role_eqb (derive_role_hint s) r) shapes).

(** The purpose [build_registry_node] gives a layout from its shapes; a
    layout without shapes is skipped and gets none. *)
Definition layout_purpose (shapes : list Shape) : option Purpose :=
  match shapes with
  | [] => None
  | _ =>
      let title_slots := role_slots title shapes in
      let body_slots := role_slots body shapes in
      let content_slots := role_slots content shapes in
      let image_slots :=
        List.length (filter (fun s => contains (lit "Picture") (name s)) shapes) in
      let has_columns := (2 <=? content_slots)%nat in
      let has_large_title :=
        existsb (fun s => (c0_05 <? area_ratio s)
                          && role_eqb (derive_role_hint s) title) shapes in
      let has_only_title :=
        (1 <=? title_slots)%nat && (body_slots =? 0)%nat
        && (content_slots <=? 1)%nat in
      Some (if has_only_title && has_large_title then TITLE_SLIDE
            else if (0 <? image_slots)%nat then VISUAL_SLIDE
            else if has_columns && (2 <=? content_slots)%nat then COMPARISON_SLIDE
            else if (1 <=? body_slots)%nat then CONTENT_SLIDE
            else GENERAL_CONTENT)
  end.

End Registry.

(* ===================================================================== *)
(** ** pipeline_2_generation/injector.py *)
(* ===================================================================== *)

Module Injector.
Import Py.
Import Beautifier.

(** *** The presentation objects the injector writes to

    Text frames, paragraphs and runs behave as python-pptx documents them:
    [clear] keeps the first paragraph and empties it, [add_paragraph] and
    [add_run] append, and [text] joins the paragraphs with a line feed. *)

Inductive Align := CENTER | RIGHT | LEFT.

Record TextRun := {
  t_text : str;
  t_bold : option bool;
  t_italic : option bool;
  t_size : option Z;
  t_color : option (Z * Z * Z)
}.

Record Paragraph := {
  p_level : Z;
  p_alignment : option Align;
  p_runs : list TextRun
}.

Record TextFrame := {
  paragraphs : list Paragraph;
  tf_vertical_anchor : option str;
  tf_auto_size : option str
}.

(** [placeholder_format.type]: an enumeration member with a name and a
    number; [str] of it reads [NAME (number)]. *)
Record PlaceholderType := { pt_name : str; pt_number : Z }.

Record Shape := {
  ph_idx : Z;
  ph_type : PlaceholderType;
  ph_name : str;
  text_frame : option TextFrame
}.

(** [slide.placeholders]. *)
Definition Slide := list Shape.

Definition paragraph_text (p : Paragraph) : str := concat (map t_text (p_runs p)).

Definition frame_text (tf : TextFrame) : str :=
  join [10%N] (map paragraph_text (paragraphs tf)).

Definition clear (tf : TextFrame) : TextFrame :=
  {| paragraphs :=
       match paragraphs tf with
       | [] => []
       | p :: _ => [{| p_level := p_level p; p_alignment := p_alignment p;
                       p_runs := [] |}]
       end;
     tf_vertical_anchor := tf_vertical_anchor tf;
     tf_auto_size := tf_auto_size tf |}.

Definition empty_paragraph : Paragraph :=
  {| p_level := 0; p_alignment := None; p_runs := [] |}.

Definition with_paragraphs (tf : TextFrame) (ps : list Paragraph) : TextFrame :=
  {| paragraphs := ps; tf_vertical_anchor := tf_vertical_anchor tf;
     tf_auto_size := tf_auto_size tf |}.

(** [tf.paragraphs[0] if tf.paragraphs else tf.add_paragraph()]: afterwards
    the paragraph written to is the first one. *)
Definition ensure_paragraph (tf : TextFrame) : TextFrame :=
  match paragraphs tf with
  | [] => with_paragraphs tf [empty_paragraph]
  | _ => tf
  end.

(** What the argument [placeholder_type] of [_is_template_header] may be. *)
Inductive TypeArg :=
| TypeNone
| TypeStr (s : str)
| TypeEnum (e : PlaceholderType).

Definition type_str (e : PlaceholderType) : str :=
  pt_name e ++ lit " (" ++ str_of_Z (pt_number e) ++ lit ")".

Definition HEADER_PATTERNS : list str :=
  [lit "Presentation\s+title\s+Page\s+\d+";
   lit "^\s*Page\s+\d+\s+\d{1,2}\s+\w+\s+\d{4}\s*$";
   lit "^\s*\d{1,2}\s+\w+\s+\d{4}\s*$"].

(** What the injector prints for a field. *)
Inductive Event :=
| SkippedImageQuery
| PlaceholderNotFound (slot_id : str)
| FilteredHeader (slot_id : str)
| NoContent (slot_id : str)
| Rendered (slot_id : str)
| Failed (slot_id : str).

Section WithRuntime.
Context {rt : Runtime} {cfg : Config}.

Definition _is_template_header (txt : str) (placeholder_type : TypeArg) : bool :=
  let text_stripped := strip txt in
  match text_stripped with
  | [] => false
  | _ =>
      if match placeholder_type with
         | TypeStr s => mem_str s [lit "TITLE"; lit "CENTER_TITLE"; lit "SUBTITLE"]
         | _ => false
         end
      then false
      else existsb (fun pattern => re_search_ignorecase pattern text_stripped)
                   HEADER_PATTERNS
  end.

(** [find_placeholder_by_id] of utils/ppt_helper.py. *)
Definition find_placeholder_by_id (slide : Slide) (idx : Z) : option Shape :=
  find (fun shape => (ph_idx shape =? idx)%Z) slide.

(** Writing back the text frame of the placeholder [find_placeholder_by_id]
    returned: the objects are shared, so the first shape of that index
    changes in the slide. *)
Fixpoint update_frame (slide : Slide) (idx : Z) (tf : TextFrame) : Slide :=
  match slide with
  | [] => []
  | shape :: rest =>
      if (ph_idx shape =? idx)%Z
      then {| ph_idx := ph_idx shape; ph_type := ph_type shape;
              ph_name := ph_name shape; text_frame := Some tf |} :: rest
      else shape :: update_frame rest idx tf
  end.

Definition target_alignment (alignment_str : option str) : option Align :=
  match alignment_str with
  | Some a =>
      if eqb a (lit "CENTER") then Some CENTER
      else if eqb a (lit "RIGHT") then Some RIGHT
      else if eqb a (lit "LEFT") then Some LEFT
      else None
  | None => None
  end.

(** [p.add_run()] with the text and font of one styled run. *)
Definition make_run (has_background : bool) (font_size : option Z) (run_data : Run)
  : TextRun :=
  {| t_text := text run_data;
     t_bold := Some (bold run_data);
     t_italic := Some (italic run_data);
     t_size := font_size;
     t_color := if has_background then Some (255, 255, 255)%Z else None |}.

(** The runs a paragraph receives: those whose text is not empty. *)
Definition emitted (has_background : bool) (font_size : option Z) (rs : list Run)
  : list TextRun :=
  map (make_run has_background font_size)
      (filter (fun r => match text r with [] => false | _ => true end) rs).

Definition add_runs (p : Paragraph) (new : list TextRun) : Paragraph :=
  {| p_level := p_level p; p_alignment := p_alignment p;
     p_runs := p_runs p ++ new |}.

Definition set_level (p : Paragraph) (level : Z) : Paragraph :=
  {| p_level := level; p_alignment := p_alignment p; p_runs := p_runs p |}.

Definition set_alignment (a : option Align) (p : Paragraph) : Paragraph :=
  match a with
  | Some _ => {| p_level := p_level p; p_alignment := a; p_runs := p_runs p |}
  | None => p
  end.

Definition on_first (f : Paragraph -> Paragraph) (ps : list Paragraph)
  : list Paragraph :=
  match ps with
  | [] => []
  | p :: rest => f p :: rest
  end.

(** The loop over [bullet_items]: the first bullet goes to the first
    paragraph, every later one to a paragraph added at the end. *)
Fixpoint render_bullets (has_background : bool) (font_size : option Z)
  (bullet_idx : nat) (bullet_items : list (list Run)) (tf : TextFrame) : TextFrame :=
  match bullet_items with
  | [] => tf
  | bullet_item :: rest =>
      let fill p := add_runs (set_level p 0)
                             (emitted has_background font_size bullet_item) in
      let tf :=
        match bullet_idx with
        | O => let tf := ensure_paragraph tf in
               with_paragraphs tf (on_first fill (paragraphs tf))
        | S _ => with_paragraphs tf (paragraphs tf ++ [fill empty_paragraph])
        end in
      render_bullets has_background font_size (S bullet_idx) rest tf
  end.

(** [any((r.get("text") or "").strip() for r in runs)]. *)
Definition has_runs (rs : list Run) : bool :=
  existsb (fun r => match strip (text r) with [] => false | _ => true end) rs.

Definition or_nil {A} (l : option (list A)) : list A :=
  match l with Some x => x | None => [] end.

(** The content check that comes before clearing. *)
Definition has_content (style : Style) : bool :=
  has_runs (or_nil (runs style))
  || match or_nil (bullets style) with [] => false | _ => true end.

(** One iteration of the semantic loop over [semantic_content.items()]:
    the slide afterwards, what was printed, and whether the field was
    added to [rendered_fields]. *)
Definition inject_semantic (has_background : bool) (slide : Slide)
  (slot_id : str) (style : Style) : Slide * list Event * bool :=
  if match semantic_role style with
     | Some r => eqb r (lit "image_query")
     | None => false
     end
  then (slide, [SkippedImageQuery], false)
  else
    match int_of_str slot_id with
    | None => (slide, [Failed slot_id], false)
    | Some sid =>
        match find_placeholder_by_id slide sid with
        | None => (slide, [PlaceholderNotFound slot_id], false)
        | Some shape =>
            match text_frame shape with
            | None => (slide, [PlaceholderNotFound slot_id], false)
            | Some tf =>
                let existing_text := strip (frame_text tf) in
                let log :=
                  if _is_template_header existing_text (TypeEnum (ph_type shape))
                  then [FilteredHeader slot_id] else [] in
                if negb (has_content style)
                then (slide, log ++ [NoContent slot_id], false)
                else
                  let tf := clear tf in
                  let tf :=
                    match vertical_anchor style with
                    | Some a =>
                        if eqb a (lit "MIDDLE")
                        then {| paragraphs := paragraphs tf;
                                tf_vertical_anchor := Some (lit "MIDDLE");
                                tf_auto_size := tf_auto_size tf |}
                        else tf
                    | None => tf
                    end in
                  let target := target_alignment (alignment style) in
                  let tf :=
                    match bullets style, runs style with
                    | Some bullet_items, _ =>
                        let tf := render_bullets has_background (font_size style)
                                                 0 bullet_items tf in
                        with_paragraphs tf (map (set_alignment target) (paragraphs tf))
                    | None, Some rs =>
                        let tf := ensure_paragraph tf in
                        with_paragraphs tf
                          (on_first (fun p =>
                                       set_alignment target
                                         (add_runs p (emitted has_background
                                                              (font_size style) rs)))
                                    (paragraphs tf))
                    | None, None => tf
                    end in
                  let tf :=
                    if mem_str (or_empty (semantic_role style)) ENABLE_AUTOFIT_ROLES
                    then {| paragraphs := paragraphs tf;
                            tf_vertical_anchor := tf_vertical_anchor tf;
                            tf_auto_size := Some (lit "TEXT_TO_FIT_SHAPE") |}
                    else tf in
                  (update_frame slide sid tf, log ++ [Rendered slot_id], true)
            end
        end
    end.

(** The runs of the legacy path: a run whose text reads as a template
    header is left out as well. *)
Definition emitted_legacy (has_background : bool) (font_size : option Z)
  (rs : list Run) : list TextRun :=
  map (make_run has_background font_size)
      (filter (fun r => negb (_is_template_header (text r) TypeNone)
                        && match text r with [] => false | _ => true end) rs).

(** One iteration of the legacy loop over [semantic_content.items()]. *)
Definition inject_legacy (has_background : bool) (slide : Slide)
  (slot_id : str) (style : Style) : Slide * list Event * bool :=
  match int_of_str slot_id with
  | None => (slide, [Failed slot_id], false)
  | Some sid =>
      match find_placeholder_by_id slide sid with
      | None => (slide, [], false)
      | Some shape =>
          match text_frame shape with
          | None => (slide, [], false)
          | Some tf =>
              let existing_text := frame_text tf in
              let placeholder_type := TypeStr (type_str (ph_type shape)) in
              let header := _is_template_header existing_text placeholder_type in
              let tf := clear tf in
              let runs_to_render := or_nil (runs style) in
              if header && negb (has_runs runs_to_render)
              then (update_frame slide sid tf, [FilteredHeader slot_id], false)
              else
                let log := if header then [FilteredHeader slot_id] else [] in
                let tf := ensure_paragraph tf in
                let target := target_alignment (alignment style) in
                let new := emitted_legacy has_background (font_size style)
                                          runs_to_render in
                let tf :=
                  with_paragraphs tf
                    (on_first (fun p => set_alignment target (add_runs p new))
                              (paragraphs tf)) in
                (update_frame slide sid tf, log,
                 match new with [] => false | _ => true end)
          end
      end
  end.

(** The loop over the styled content of one slide, by either path. *)
Definition render_content (is_semantic has_background : bool)
  (semantic_content : Dict.t Style) (slide : Slide)
  : Slide * list Event * list str :=
  fold_left
    (fun acc item =>
       let '(slide, log, rendered_fields) := acc in
       let '(slot_id, style) := item in
       let '(slide, log', ok) :=
         (if is_semantic then inject_semantic else inject_legacy)
           has_background slide slot_id style in
       (slide, log ++ log', if ok then rendered_fields ++ [slot_id] else rendered_fields))
    semantic_content (slide, [], []).

End WithRuntime.

End Injector.

(* ===================================================================== *)
(** ** A runtime for closed examples *)
(* ===================================================================== *)

Module Sample.
Import Py.

Fixpoint digits (s : str) (acc : Z) : option Z :=
  match s with
  | [] => Some acc
  | c :: s' =>
      if ((48 <=? c) && (c <=? 57))%N
      then digits s' (10 * acc + Z.of_N (c - 48))%Z
      else None
  end.

(** [int()] on a plain run of ASCII digits. *)
Definition decimal (s : str) : option Z :=
  match s with
  | [] => None
  | _ => digits s 0%Z
  end.

(** The examples below are ASCII text and numbered slots, on which this
    runtime answers as CPython does; no pattern matches. *)
Definition runtime : Runtime :=
  {| uni_isalnum := fun _ => false;
     uni_lower := fun s => s;
     int_of_str := decimal;
     str_of_object := fun _ => lit "<object>";
     re_search_ignorecase := fun _ _ => false |}.

End Sample.

(* ===================================================================== *)
(** ** The repository's tests, replayed *)
(* ===================================================================== *)

(** Cases of test_beautifier.py and test_beautifier_circle.py that the
    code passes, evaluated on the embedding. *)
Module Replay.
Import Py Beautifier.
Local Open Scope float_scope.

Section WithRuntime.
Context {rt : Runtime}.

Example test_parse_markdown_plain_text :
  parse_markdown (Some (lit "Hello World")) = [plain (lit "Hello World")].
Proof. vm_compute. reflexivity. Qed.

Example test_parse_markdown_mixed :
  parse_markdown (Some (lit "Plain **bold** and *italic* text"))
  = [plain (lit "Plain "); mkRun (lit "bold") true false; plain (lit " and ");
     mkRun (lit "italic") false true; plain (lit " text")].
Proof. vm_compute. reflexivity. Qed.

Example test_parse_markdown_adjacent_markers :
  parse_markdown (Some (lit "**bold***italic*"))
  = [mkRun (lit "bold") true false; mkRun (lit "italic") false true].
Proof. vm_compute. reflexivity. Qed.

Example test_parse_markdown_none_input :
  parse_markdown None = [plain []] /\ parse_markdown (Some []) = [plain []].
Proof. split; reflexivity. Qed.

Example test_font_size :
  _determine_font_size (Some (lit "title")) 0x1.999999999999ap-4 ROLE_CONTENT = 32%Z
  /\ _determine_font_size (Some (lit "title")) 0x1.47ae147ae147bp-5 ROLE_CONTENT = 28%Z
  /\ _determine_font_size (Some (lit "header")) 0x1.999999999999ap-4 ROLE_CONTENT = 32%Z
  /\ _determine_font_size (Some (lit "body")) 0x1.999999999999ap-2 ROLE_CONTENT = 22%Z
  /\ _determine_font_size (Some (lit "body")) 0x1.999999999999ap-3 ROLE_CONTENT = 18%Z
  /\ _determine_font_size (Some (lit "footer")) 0x1.999999999999ap-5 ROLE_CONTENT = 10%Z
  /\ _determine_font_size (Some (lit "unknown")) 0x1.999999999999ap-3 ROLE_CONTENT = 16%Z.
Proof. vm_compute. repeat split. Qed.

Example test_alignment :
  _alignment_for_role (Some (lit "TITLE")) None None = Some (lit "CENTER")
  /\ _alignment_for_role (Some (lit "caption")) None None = Some (lit "CENTER")
  /\ _alignment_for_role (Some (lit "metric")) None None = Some (lit "RIGHT").
Proof. vm_compute. repeat split. Qed.

End WithRuntime.

Example test_chord_width :
  _calculate_chord_width 0 0.5 0 = 1
  /\ _calculate_chord_width 0.5 0.5 0 = 0
  /\ _calculate_chord_width 0x1.3333333333333p-1 0.5 0 = 0
  /\ _calculate_chord_width 0 0 0 = 0
  /\ _calculate_chord_width 0 (-0.5) 0 = 0.
Proof. vm_compute. repeat split. Qed.

(** 0.3, 0.2 and 0.15 as radius; the sizes asked for are above 20, the
    minimum, the minimum, and strictly between 8 and 72. *)
Example test_fit :
  _fit_text_in_circle (lit "Hi") [plain (lit "Hi")] 0x1.3333333333333p-2
                      TEXT_PADDING_RATIO = Some 71%Z
  /\ _fit_text_in_circle [] [plain []] 0x1.999999999999ap-3 TEXT_PADDING_RATIO
     = Some 8%Z
  /\ _fit_text_in_circle (lit "Test") [plain (lit "Test")] 0 TEXT_PADDING_RATIO
     = Some 8%Z
  /\ _fit_text_in_circle (lit "Test") [plain (lit "Test")] 0x1.999999999999ap-4 1
     = Some 8%Z
  /\ _fit_text_in_circle (lit "One Two Three Four Five")
                         [plain (lit "One Two Three Four Five")]
                         0x1.3333333333333p-3 TEXT_PADDING_RATIO = Some 54%Z.
Proof. vm_compute. repeat split. Qed.

End Replay.

(* ===================================================================== *)
(** ** Markdown parsing *)
(* ===================================================================== *)

Module MarkdownTheory.
Import Py Beautifier.

(** The input with its markers taken out: an unescaped asterisk goes, and
    so does a backslash that escapes the character after it. *)
Fixpoint without_markers (s : str) : str :=
  match s with
  | [] => []
  | c :: rest =>
      if (c =? BACKSLASH)%N then
        match rest with
        | d :: rest' => d :: without_markers rest'
        | [] => [c]
        end
      else if (c =? MD_ITALIC)%N then without_markers rest
      else c :: without_markers rest
  end.

Lemma without_markers_escape (d : N) (rest : str) :
  without_markers (BACKSLASH :: d :: rest) = d :: without_markers rest.
Proof. reflexivity. Qed.

Lemma without_markers_star (rest : str) :
  without_markers (MD_ITALIC :: rest) = without_markers rest.
Proof. reflexivity. Qed.

Lemma without_markers_other (c : N) (rest : str) :
  c <> MD_ITALIC -> c <> BACKSLASH \/ rest = [] ->
  without_markers (c :: rest) = c :: without_markers rest.
Proof.
  intros Hs Hb. cbn [without_markers].
  destruct (c =? BACKSLASH)%N eqn:E.
  - apply N.eqb_eq in E. destruct Hb as [Hb | ->]; [contradiction | reflexivity].
  - apply N.eqb_neq in Hs. now rewrite Hs.
Qed.

(** No asterisk and no backslash. *)
Definition unmarked (s : str) : Prop :=
  Forall (fun c => c <> MD_ITALIC /\ c <> BACKSLASH) s.

Section WithRuntime.
Context {rt : Runtime}.

Lemma isalnum_marker : isalnum MD_ITALIC = false.
Proof. reflexivity. Qed.

(** The left edge of a marker is always a boundary: the character at the
    index is the asterisk itself. *)
Lemma boundary_at_marker (s : str) (i : nat) :
  getitem s i = MD_ITALIC -> _is_boundary s i = true.
Proof.
  intros Hc. unfold _is_boundary.
  destruct ((i <=? 0) || (len s <=? i)); [reflexivity|].
  rewrite Hc, isalnum_marker, andb_false_r. reflexivity.
Qed.

(** So is the right edge: the character before the index is the asterisk. *)
Lemma boundary_after_marker (s : str) (i : nat) :
  getitem s i = MD_ITALIC -> _is_boundary s (i + 1) = true.
Proof.
  intros Hc. unfold _is_boundary.
  destruct ((i + 1 <=? 0) || (len s <=? i + 1)); [reflexivity|].
  replace (i + 1 - 1) with i by lia.
  rewrite Hc, isalnum_marker. reflexivity.
Qed.

Lemma skipn_getitem (s : str) (i : nat) :
  i < len s -> skipn i s = getitem s i :: skipn (S i) s.
Proof.
  unfold len, getitem. revert i.
  induction s as [|c s IH]; intros [|i] Hi; simpl in *; try lia.
  - reflexivity.
  - apply IH. lia.
Qed.

Lemma startswith_bold (s : str) (i : nat) :
  startswith s MD_BOLD i = true ->
  i + 1 < len s /\ getitem s i = MD_ITALIC /\ getitem s (i + 1) = MD_ITALIC.
Proof.
  unfold startswith. intros Hp.
  destruct (le_lt_dec (len s) i) as [Hle|Hlt].
  { rewrite skipn_all2 in Hp by exact Hle. discriminate. }
  rewrite (@skipn_getitem s i Hlt) in Hp.
  change MD_BOLD with [MD_ITALIC; MD_ITALIC] in Hp. cbn [prefixb] in Hp.
  apply andb_prop in Hp. destruct Hp as [H0 Hp].
  apply N.eqb_eq in H0.
  destruct (le_lt_dec (len s) (S i)) as [Hle'|Hlt'].
  { rewrite skipn_all2 in Hp by exact Hle'. discriminate. }
  rewrite (@skipn_getitem s (S i) Hlt') in Hp. cbn [prefixb] in Hp.
  apply andb_prop in Hp. destruct Hp as [H1 _].
  apply N.eqb_eq in H1.
  replace (i + 1) with (S i) by lia.
  repeat split; [lia | now symmetry | now symmetry].
Qed.

Lemma startswith_bold_inv (s : str) (i : nat) :
  i + 1 < len s -> getitem s i = MD_ITALIC -> getitem s (i + 1) = MD_ITALIC ->
  startswith s MD_BOLD i = true.
Proof.
  intros Hlt H0 H1. unfold startswith.
  rewrite (@skipn_getitem s i) by lia.
  rewrite (@skipn_getitem s (S i)) by lia.
  replace (i + 1) with (S i) in H1 by lia.
  rewrite H0, H1. reflexivity.
Qed.

Lemma flush_texts (b it : bool) (buf : str) (runs : list Run) :
  concat (map text (flush b it buf runs)) = concat (map text runs) ++ buf.
Proof.
  destruct buf as [|c buf]; simpl.
  - now rewrite app_nil_r.
  - rewrite map_app, concat_app. simpl. now rewrite app_nil_r.
Qed.

Ltac destruct_scan :=
  match goal with
  | |- context [scan ?s ?i ?b ?it ?buf ?rs] =>
      destruct (scan s i b it buf rs) as [[[? ?] ?] ?]
  end.

Ltac use_ih :=
  match goal with
  | IH : concat (map text ?r) ++ ?b = _ |- context [concat (map text ?r) ++ ?b] =>
      rewrite IH
  end.

(** What the loop leaves behind, read as text: the runs and the buffer it
    started from, then the rest of the input without its markers. *)
Lemma scan_texts (s : str) (i : nat) (b it : bool) (buf : str) (runs : list Run) :
  let '(b', it', buf', runs') := scan s i b it buf runs in
  concat (map text runs') ++ buf'
  = concat (map text runs) ++ buf ++ without_markers (skipn i s).
Proof.
  funelim (scan s i b it buf runs).
  - rewrite skipn_all2 by exact l. simpl. now rewrite app_nil_r.
  - clear Heqcall.
    rewrite (@skipn_getitem s i Hlt).
    set (ch := getitem s i) in *.
    destruct ((ch =? BACKSLASH)%N && (i + 1 <? len s)) eqn:Hesc.
    { apply andb_prop in Hesc. destruct Hesc as [Hch Hn].
      apply Nat.ltb_lt in Hn. apply N.eqb_eq in Hch.
      destruct_scan. use_ih.
      rewrite (@skipn_getitem s (S i)) by lia.
      rewrite Hch, without_markers_escape.
      replace (i + 2) with (S (S i)) by lia.
      replace (i + 1) with (S i) by lia.
      now rewrite <- app_assoc. }
    destruct (startswith s MD_BOLD i
              && (_is_boundary s i && _is_boundary s (i + len MD_BOLD))) eqn:Hbold.
    { apply andb_prop in Hbold. destruct Hbold as [Hsw _].
      destruct (startswith_bold _ _ Hsw) as (Hn & Hc0 & Hc1).
      destruct_scan. use_ih. rewrite flush_texts.
      fold ch in Hc0. rewrite Hc0, without_markers_star.
      rewrite (@skipn_getitem s (S i)) by lia.
      replace (i + 1) with (S i) in Hc1 by lia.
      rewrite Hc1, without_markers_star.
      change (len MD_BOLD) with 2. replace (i + 2) with (S (S i)) by lia.
      now rewrite <- app_assoc. }
    destruct ((ch =? MD_ITALIC)%N) eqn:Hstar.
    { apply N.eqb_eq in Hstar.
      rewrite (boundary_at_marker _ _ Hstar), (boundary_after_marker _ _ Hstar).
      cbn [andb].
      destruct_scan. use_ih. rewrite flush_texts.
      rewrite Hstar, without_markers_star.
      replace (i + 1) with (S i) by lia.
      now rewrite <- app_assoc. }
    cbn [andb].
    destruct_scan. use_ih.
    replace (i + 1) with (S i) by lia.
    apply N.eqb_neq in Hstar.
    rewrite without_markers_other; [now rewrite <- app_assoc | exact Hstar |].
    destruct ((ch =? BACKSLASH)%N) eqn:Hbs.
    + right. cbn [andb] in Hesc. apply Nat.ltb_ge in Hesc.
      apply skipn_all2. unfold len in *. lia.
    + left. now apply N.eqb_neq.
Qed.


(** Concatenating the texts of the runs gives the input without its
    markers, in the fallback for open markers as well. *)
Lemma parse_markdown_texts (s : str) :
  concat (map text (parse_markdown (Some s))) = without_markers s.
Proof.
  destruct s as [|c s]; [reflexivity|].
  unfold parse_markdown.
  pose proof (scan_texts (c :: s) 0 false false [] []) as Hscan.
  destruct (scan (c :: s) 0 false false [] []) as [[[b it] buf] rs].
  cbn [skipn map concat app] in Hscan.
  assert (Hall : concat (map text (flush b it buf rs)) = without_markers (c :: s)).
  { now rewrite flush_texts. }
  destruct (b || it).
  - cbn [map concat text plain]. now rewrite app_nil_r.
  - destruct (flush b it buf rs) as [|r rs'] eqn:E; [|exact Hall].
    cbn [map concat text plain]. rewrite app_nil_r. exact Hall.
Qed.


(** When a marker is still open at the end of the input, the result is one
    plain run, and its text has lost every marker. *)
Lemma parse_markdown_open_marker (s : str) :
  s <> [] ->
  (let '(bold_on, italic_on, _, _) := scan s 0 false false [] [] in
   bold_on || italic_on) = true ->
  parse_markdown (Some s) = [plain (without_markers s)].
Proof.
  intros Hne Hopen.
  pose proof (parse_markdown_texts s) as Htexts.
  destruct s as [|c s]; [contradiction|].
  unfold parse_markdown in *.
  destruct (scan (c :: s) 0 false false [] []) as [[[b it] buf] rs].
  rewrite Hopen in *.
  cbn [map concat text plain] in Htexts. rewrite app_nil_r in Htexts.
  now rewrite Htexts.
Qed.

End WithRuntime.
End MarkdownTheory.

(* ===================================================================== *)
(** ** The claims on markdown parsing *)
(* ===================================================================== *)

Module MarkdownClaims.
Import Py Beautifier MarkdownTheory.

(** C2, as the code behaves: at a marker both boundary tests look at the
    asterisk itself, which is not alphanumeric, so they pass whatever
    surrounds the marker; the asterisks inside [fi*sh*ing] do toggle
    italics, and the result has three runs, the middle one italic, not the
    single plain run claimed. *)
Theorem parse_markdown_inside_word {rt : Runtime} :
  (forall (s : str) (i : nat),
      getitem s i = MD_ITALIC ->
      _is_boundary s i = true /\ _is_boundary s (i + 1) = true)
  /\ parse_markdown (Some (lit "fi*sh*ing"))
     = [plain (lit "fi"); mkRun (lit "sh") false true; plain (lit "ing")].
Proof.
  split.
  - intros s i Hc. split.
    + now apply boundary_at_marker.
    + now apply boundary_after_marker.
  - vm_compute. reflexivity.
Qed.

(** C3, as the code behaves: when a marker is still open at the end, the
    result is one plain run, but its text is joined from the runs built so
    far and so has lost every marker; for [Start **bold only] it is
    [Start bold only], not the input verbatim. *)
Theorem parse_markdown_unbalanced {rt : Runtime} :
  (forall s : str,
      s <> [] ->
      (let '(bold_on, italic_on, _, _) := scan s 0 false false [] [] in
       bold_on || italic_on) = true ->
      parse_markdown (Some s) = [plain (without_markers s)])
  /\ parse_markdown (Some (lit "Start **bold only")) = [plain (lit "Start bold only")]
  /\ lit "Start bold only" <> lit "Start **bold only".
Proof.
  split; [|split].
  - apply parse_markdown_open_marker.
  - vm_compute. reflexivity.
  - discriminate.
Qed.



End MarkdownClaims.

(* ===================================================================== *)
(** ** Circular text fitting *)
(* ===================================================================== *)

Module CircleFitTheory.
Import Py Beautifier.
Local Open Scope float_scope.

(** The constants are the binary64 values of the decimal literals of the
    source: each is the rounded quotient of two small integers. *)
Lemma decimal_constants :
  TEXT_PADDING_RATIO = 1 / 10 /\ CHAR_WIDTH_RATIO = 6 / 10
  /\ BOLD_WIDTH_MULTIPLIER = 11 / 10 /\ LINE_HEIGHT_RATIO = 12 / 10
  /\ AREA_THRESHOLD_TITLE = 5 / 100 /\ AREA_THRESHOLD_BODY = 3 / 10
  /\ AREA_THRESHOLD_CONTENT = 15 / 100 /\ DEFAULT_AREA_RATIO = 1 / 10.
Proof. vm_compute. repeat split. Qed.

(** Every value the binary search can return, whatever the fit test says
    at each candidate: both branches are followed. *)
Fixpoint outcomes (fuel : nat) (min_font max_font best_fit : float)
  : list (option float) :=
  if FIT_PRECISION <? max_font - min_font then
    match fuel with
    | O => [None]
    | S fuel' =>
        let mid_font := (min_font + max_font) / 2 in
        outcomes fuel' mid_font max_font mid_font
        ++ outcomes fuel' min_font mid_font best_fit
    end
  else [Some best_fit].

Lemma search_in_outcomes (fuel : nat) (fits : float -> bool)
  (min_font max_font best_fit : float) :
  In (search fuel fits min_font max_font best_fit)
     (outcomes fuel min_font max_font best_fit).
Proof.
  revert min_font max_font best_fit.
  induction fuel as [|fuel IH]; intros lo hi best; cbn [search outcomes].
  - destruct (FIT_PRECISION <? hi - lo); left; reflexivity.
  - destruct (FIT_PRECISION <? hi - lo); [|left; reflexivity].
    apply in_or_app.
    destruct (fits ((lo + hi) / 2)); [left | right]; apply IH.
Qed.

(** A size the search may end on: an integer from 8 to 71 points. *)
Definition in_range (o : option float) : bool :=
  match o with
  | Some r =>
      match int_of_float r with
      | Some z => (8 <=? z)%Z && (z <=? 71)%Z
      | None => false
      end
  | None => false
  end.

Lemma outcomes_in_range :
  forallb in_range (outcomes 64 (fst FONT_SIZE_RANGE) (snd FONT_SIZE_RANGE)
                             (fst FONT_SIZE_RANGE)) = true.
Proof. vm_compute. reflexivity. Qed.

Lemma in_range_inv (o : option float) :
  in_range o = true ->
  exists r z, o = Some r /\ int_of_float r = Some z /\ (8 <= z <= 71)%Z.
Proof.
  destruct o as [r|]; [|discriminate]. cbn [in_range].
  destruct (int_of_float r) as [z|] eqn:Hz; [|discriminate].
  intros Hb. apply andb_prop in Hb. destruct Hb as [Hlo Hhi].
  apply Z.leb_le in Hlo. apply Z.leb_le in Hhi.
  exists r, z. split; [reflexivity | split; [exact Hz | lia]].
Qed.

(** The search over the font range comes back within its budget, on a
    size in range. *)
Lemma search_in_range (fits : float -> bool) :
  exists r z,
    search 64 fits (fst FONT_SIZE_RANGE) (snd FONT_SIZE_RANGE) (fst FONT_SIZE_RANGE)
    = Some r
    /\ int_of_float r = Some z /\ (8 <= z <= 71)%Z.
Proof.
  apply in_range_inv.
  pose proof outcomes_in_range as Hall.
  rewrite forallb_forall in Hall.
  apply Hall, search_in_outcomes.
Qed.

Lemma int_of_min_font : int_of_float (fst FONT_SIZE_RANGE) = Some 8%Z.
Proof. vm_compute. reflexivity. Qed.

(** The fit returns for every text, run list, radius and padding. *)
Lemma fit_returns (txt : str) (runs : list Run) (radius padding_ratio : float) :
  exists z, _fit_text_in_circle txt runs radius padding_ratio = Some z
            /\ (8 <= z <= 71)%Z.
Proof.
  unfold _fit_text_in_circle. cbv zeta.
  destruct (match txt with [] => true | _ => false end || (radius <=? 0)).
  { exists 8%Z. split; [exact int_of_min_font | lia]. }
  destruct (radius * (1 - padding_ratio) <=? 0).
  { exists 8%Z. split; [exact int_of_min_font | lia]. }
  destruct (search_in_range (fits_at txt (radius * (1 - padding_ratio))))
    as (r & z & Hs & Hz & Hb).
  rewrite Hs, Hz. exists z. split; [reflexivity | exact Hb].
Qed.

End CircleFitTheory.

Module CircleFitClaims.
Import Py Beautifier CircleFitTheory.




End CircleFitClaims.

(* ===================================================================== *)
(** ** Font sizes *)
(* ===================================================================== *)

Module FontSizeClaims.
Import Py Beautifier.
Local Open Scope float_scope.

Section WithRuntime.
Context {rt : Runtime}.

(** The table on slides that are not title slides, for the four role names
    of the registry. *)
Lemma font_size_standard_roles (area_ratio : float) (slide_role : str) :
  eqb slide_role ROLE_TITLE = false ->
  _determine_font_size (Some (lit "title")) area_ratio slide_role
    = (if AREA_THRESHOLD_TITLE <? area_ratio then 32%Z else 28%Z)
  /\ _determine_font_size (Some (lit "body")) area_ratio slide_role
    = (if AREA_THRESHOLD_BODY <? area_ratio then 22%Z else 18%Z)
  /\ _determine_font_size (Some (lit "content")) area_ratio slide_role
    = (if AREA_THRESHOLD_CONTENT <? area_ratio then 16%Z else 14%Z)
  /\ _determine_font_size (Some (lit "footer")) area_ratio slide_role = 10%Z.
Proof.
  intros Hrole. unfold _determine_font_size. rewrite Hrole.
  repeat split.
Qed.

(** A role that names none of the known ones gets the fallback. *)
Lemma font_size_unknown_role (role_hint : option str) (area_ratio : float)
  (slide_role : str) :
  eqb slide_role ROLE_TITLE = false ->
  any_in [lit "title"; lit "header"; lit "headline"; lit "body"; lit "content";
          lit "footer"] (lower (or_empty role_hint)) = false ->
  _determine_font_size role_hint area_ratio slide_role = FONT_SIZE_FALLBACK.
Proof.
  intros Hrole Hnone. unfold _determine_font_size. rewrite Hrole.
  unfold any_in in Hnone. cbn [existsb] in Hnone.
  repeat (apply orb_false_elim in Hnone; destruct Hnone as [?H Hnone]).
  repeat match goal with E : contains _ _ = false |- _ => rewrite E; clear E end.
  reflexivity.
Qed.

(** Title and footer fields of a title slide, whatever the geometry. *)
Lemma font_size_title_slide (area_ratio : float) :
  _determine_font_size (Some (lit "title")) area_ratio ROLE_TITLE = 44%Z
  /\ _determine_font_size (Some (lit "body")) area_ratio ROLE_TITLE = 28%Z
  /\ _determine_font_size (Some (lit "footer")) area_ratio ROLE_TITLE = 11%Z.
Proof. repeat split. Qed.

Lemma prefixb_app_contains (a b hay : str) :
  prefixb (a ++ b) hay = true -> contains b hay = true.
Proof.
  revert hay. induction a as [|c a IH]; intros hay Hp.
  - cbn [app] in Hp. destruct hay; cbn [contains]; now rewrite Hp.
  - destruct hay as [|d hay]; [discriminate|].
    cbn [app prefixb] in Hp. apply andb_prop in Hp. destruct Hp as [_ Hp].
    cbn [contains]. rewrite (IH hay Hp). apply orb_true_r.
Qed.

(** A string that contains [a ++ b] contains [b]. *)
Lemma contains_app (a b hay : str) :
  contains (a ++ b) hay = true -> contains b hay = true.
Proof.
  induction hay as [|d hay IH]; cbn [contains]; intros Hc.
  - rewrite orb_false_r in Hc. now apply (prefixb_app_contains a b []).
  - apply orb_prop in Hc. destruct Hc as [Hp | Ht].
    + now apply (prefixb_app_contains a b (d :: hay)).
    + cbn [contains]. rewrite (IH Ht). apply orb_true_r.
Qed.

(** C5, as the code behaves: on a title slide every role that names
    [subtitle] is caught by the test for [title], which comes first, and
    gets the 44 points of the main title; the branch that would give a
    subtitle its 28 points is never reached for it. *)
Theorem font_size_subtitle_on_title_slide (role_hint : option str)
  (area_ratio : float) :
  contains (lit "subtitle") (lower (or_empty role_hint)) = true ->
  _determine_font_size role_hint area_ratio ROLE_TITLE = FONT_SIZE_TITLE_SLIDE_MAIN
  /\ FONT_SIZE_TITLE_SLIDE_MAIN <> FONT_SIZE_TITLE_SLIDE_SUBTITLE.
Proof.
  intros Hsub. split; [|discriminate].
  apply (contains_app (lit "sub") (lit "title")) in Hsub.
  unfold _determine_font_size.
  change (eqb ROLE_TITLE ROLE_TITLE) with true. cbv iota.
  now rewrite Hsub.
Qed.

End WithRuntime.

Lemma font_size_subtitle_on_title_slide_witness :
  _determine_font_size (rt := Sample.runtime) (Some (lit "subtitle"))
                       DEFAULT_AREA_RATIO ROLE_TITLE = 44%Z
  /\ 44%Z <> 28%Z.
Proof.
  apply (font_size_subtitle_on_title_slide (rt := Sample.runtime)). reflexivity.
Defined.

End FontSizeClaims.

(* ===================================================================== *)
(** ** Role hints and layout purposes *)
(* ===================================================================== *)

Module RegistryTheory.
Import Py Registry.
Local Open Scope float_scope.

(** The rules of the purpose classification, stated on the regions rather
    than on counts of them. *)
Definition has_role (r : RoleHint) (shapes : list Shape) : bool :=
  existsb (fun s => role_eqb (derive_role_hint s) r) shapes.

(** A title-role region that covers more than 5% of the slide. *)
Definition large_title (s : Shape) : bool :=
  (c0_05 <? area_ratio s) && role_eqb (derive_role_hint s) title.

Definition is_picture (s : Shape) : bool := contains (lit "Picture") (name s).

Definition purpose_by_rules (shapes : list Shape) : Purpose :=
  if existsb large_title shapes && negb (has_role body shapes)
     && (role_slots content shapes <=? 1)%nat
  then TITLE_SLIDE
  else if existsb is_picture shapes then VISUAL_SLIDE
  else if (2 <=? role_slots content shapes)%nat then COMPARISON_SLIDE
  else if has_role body shapes then CONTENT_SLIDE
  else GENERAL_CONTENT.

Lemma count_positive {A} (p : A -> bool) (l : list A) :
  (1 <=? List.length (filter p l))%nat = existsb p l.
Proof.
  induction l as [|x l IH]; [reflexivity|].
  cbn [filter existsb]. destruct (p x); [reflexivity | exact IH].
Qed.

Lemma count_zero {A} (p : A -> bool) (l : list A) :
  (List.length (filter p l) =? 0)%nat = negb (existsb p l).
Proof.
  induction l as [|x l IH]; [reflexivity|].
  cbn [filter existsb]. destruct (p x); [reflexivity | exact IH].
Qed.

Lemma large_title_has_title (shapes : list Shape) :
  existsb large_title shapes = true -> has_role title shapes = true.
Proof.
  unfold has_role. rewrite !existsb_exists.
  intros (s & Hin & Hl). exists s. split; [exact Hin|].
  unfold large_title in Hl. now apply andb_prop in Hl.
Qed.

Lemma layout_purpose_cons (s : Shape) (rest : list Shape) :
  layout_purpose (s :: rest) = Some (purpose_by_rules (s :: rest)).
Proof.
  set (shapes := s :: rest).
  unfold layout_purpose, purpose_by_rules. fold shapes.
  change (match shapes with [] => None | _ => ?x end) with x.
  f_equal.
  unfold role_slots at 1 2. rewrite count_positive, count_zero.
  change (existsb (fun s0 => role_eqb (derive_role_hint s0) title) shapes)
    with (has_role title shapes).
  change (existsb (fun s0 => role_eqb (derive_role_hint s0) body) shapes)
    with (has_role body shapes).
  change (existsb (fun s0 => (c0_05 <? area_ratio s0)
                             && role_eqb (derive_role_hint s0) title) shapes)
    with (existsb large_title shapes).
  change (0 <? ?n)%nat with (1 <=? n)%nat. rewrite count_positive.
  change (existsb (fun s0 => contains (lit "Picture") (name s0)) shapes)
    with (existsb is_picture shapes).
  unfold role_slots at 4. rewrite count_positive.
  change (existsb (fun s0 => role_eqb (derive_role_hint s0) body) shapes)
    with (has_role body shapes).
  destruct (existsb large_title shapes) eqn:Hl.
  - rewrite (large_title_has_title _ Hl). cbn [andb].
    rewrite andb_true_r.
    destruct (negb (has_role body shapes) && (role_slots content shapes <=? 1)%nat);
      [reflexivity|].
    destruct (existsb is_picture shapes); [reflexivity|].
    now rewrite andb_diag.
  - rewrite andb_false_r. cbn [andb].
    destruct (existsb is_picture shapes); [reflexivity|].
    now rewrite andb_diag.
Qed.

Lemma decimal_thresholds :
  c0_2 = 2 / 10 /\ c0_8 = 8 / 10 /\ c0_3 = 3 / 10 /\ c0_1 = 1 / 10
  /\ c0_05 = 5 / 100 /\ ELLIPSE_TOLERANCE = 1 / 100.
Proof. vm_compute. repeat split. Qed.

Lemma ratio_zero (b : Z) : ratio 0 b = 0.
Proof.
  unfold ratio, truediv. destruct (0 <? b)%Z eqn:E; [|reflexivity].
  apply Z.ltb_lt in E. cbn [Z.eqb].
  destruct (b <? 0)%Z eqn:E'; [apply Z.ltb_lt in E'; lia | reflexivity].
Qed.

(** A shape at the very top with no height is a title, whatever its area. *)
Lemma top_and_flat_is_title (shape : Shape) :
  norm_top shape = 0 -> norm_height shape = 0 -> derive_role_hint shape = title.
Proof.
  intros Htop Hheight. unfold derive_role_hint. rewrite Htop, Hheight.
  reflexivity.
Qed.

(** Absent spatial properties are read as zero lengths, on any slide. *)
Lemma absent_lengths_default (sw sh : Z) (shape : RawShape) :
  raw_top shape = None -> raw_height shape = None ->
  norm_top (enrich sw sh shape) = 0
  /\ norm_height (enrich sw sh shape) = 0
  /\ area_ratio (enrich sw sh shape) = 0.
Proof.
  intros Ht Hh. unfold enrich. cbn [norm_top norm_height area_ratio].
  rewrite Ht, Hh. cbn [or_zero]. rewrite Z.mul_0_r.
  repeat split; apply ratio_zero.
Qed.

End RegistryTheory.

Module RegistryClaims.
Import Py Registry RegistryTheory.
Local Open Scope float_scope.

(** A title placeholder 0.4 of the slide wide and 0.1 high, on a 4:3
    slide of 9144000 by 6858000 EMU. *)
Definition small_title : Shape :=
  enrich 9144000 6858000
    {| raw_name := lit "Title 1"; raw_type := lit "TITLE (1)"; raw_idx := 0;
       raw_left := Some 457200%Z; raw_top := Some 274638%Z;
       raw_width := Some 3657600%Z; raw_height := Some 685800%Z;
       raw_shape_type := lit "rectangle" |}.

(** C6, counterexample: a layout whose only region is a title covering 4%
    of the slide is a title-only region set, and its purpose is
    GENERAL_CONTENT. *)
Lemma small_title_only_layout :
  Forall (fun s => derive_role_hint s = title) [small_title]
  /\ layout_purpose [small_title] = Some GENERAL_CONTENT.
Proof.
  split.
  - constructor; [vm_compute; reflexivity | constructor].
  - vm_compute. reflexivity.
Qed.

(** C6, amended: a layout without regions is skipped; otherwise its purpose
    follows the ordered rules [purpose_by_rules]: TITLE_SLIDE when some
    title-role region covers more than 5% of the slide, no region has the
    body role and at most one has the content role; otherwise VISUAL_SLIDE
    when a region's name contains "Picture"; otherwise COMPARISON_SLIDE
    with two or more content-role regions; otherwise CONTENT_SLIDE with a
    body-role region; otherwise GENERAL_CONTENT. *)
Theorem layout_purpose_rules (shapes : list Shape) :
  layout_purpose shapes
  = match shapes with
    | [] => None
    | _ => Some (purpose_by_rules shapes)
    end.
Proof.
  destruct shapes as [|s rest]; [reflexivity | apply layout_purpose_cons].
Qed.

(** A group or connector artifact: no position and no size. *)
Definition artifact : RawShape :=
  {| raw_name := lit "Group 7"; raw_type := lit "OBJECT (7)"; raw_idx := 13;
     raw_left := None; raw_top := None; raw_width := None; raw_height := None;
     raw_shape_type := lit "rectangle" |}.

(** C9: a shape whose spatial properties are absent has them read as zero
    by the parser, on a slide of any size, so that its normalized top,
    height and area are zero, and [derive_role_hint] gives it the role
    [title], not body, content or footer. *)
Theorem absent_geometry_is_title (slide_width slide_height : Z) (shape : RawShape) :
  raw_left shape = None -> raw_top shape = None ->
  raw_width shape = None -> raw_height shape = None ->
  let enriched := enrich slide_width slide_height shape in
  norm_top enriched = 0 /\ norm_height enriched = 0 /\ area_ratio enriched = 0
  /\ derive_role_hint enriched = title.
Proof.
  intros _ Htop _ Hheight. cbv zeta.
  destruct (absent_lengths_default slide_width slide_height shape Htop Hheight)
    as (Ht & Hh & Ha).
  repeat split; try assumption.
  now apply top_and_flat_is_title.
Qed.

Lemma absent_geometry_is_title_witness :
  derive_role_hint (enrich 12192000 6858000 artifact) = title.
Proof.
  apply (absent_geometry_is_title 12192000 6858000 artifact); reflexivity.
Defined.

End RegistryClaims.

(* ===================================================================== *)
(** ** Rendering of a field *)
(* ===================================================================== *)

Module InjectorTheory.
Import Py Beautifier Injector.

Lemma eqb_eq (s t : str) : Py.eqb s t = true <-> s = t.
Proof.
  revert t. induction s as [|c s IH]; intros [|d t]; cbn [Py.eqb];
    try (split; [discriminate | discriminate]); [split; reflexivity|].
  rewrite andb_true_iff, N.eqb_eq, IH.
  split; [intros [-> ->]; reflexivity | intros E; inversion E; split; reflexivity].
Qed.

Lemma eqb_refl (s : str) : Py.eqb s s = true.
Proof. now apply eqb_eq. Qed.










Section WithRuntime.
Context {rt : Runtime} {cfg : Config}.


(** The placeholders of other indices are left alone. *)
Lemma find_update_frame_other (slide : Slide) (sid other : Z) (tf : TextFrame) :
  other <> sid ->
  find_placeholder_by_id (update_frame slide sid tf) other
  = find_placeholder_by_id slide other.
Proof.
  intros Hne. unfold find_placeholder_by_id.
  induction slide as [|s slide IH]; [reflexivity|].
  cbn [find update_frame]. destruct (ph_idx s =? sid)%Z eqn:E.
  - cbn [find ph_idx]. apply Z.eqb_eq in E. rewrite E.
    destruct (sid =? other)%Z eqn:E'; [apply Z.eqb_eq in E'; congruence | reflexivity].
  - cbn [find]. now rewrite IH.
Qed.



(** The semantic path keeps its hands off a region when the specification
    has nothing to say: the slide is the same afterwards. *)
Lemma semantic_keeps_template (has_background : bool) (slide : Slide)
  (slot_id : str) (style : Style) :
  has_content style = false ->
  fst (fst (inject_semantic has_background slide slot_id style)) = slide.
Proof.
  intros Hc. unfold inject_semantic.
  destruct (match semantic_role style with
            | Some r => Py.eqb r (lit "image_query")
            | None => false
            end); [reflexivity|].
  destruct (int_of_str slot_id) as [sid|]; [|reflexivity].
  destruct (find_placeholder_by_id slide sid) as [shape|]; [|reflexivity].
  destruct (text_frame shape) as [tf|]; [|reflexivity].
  rewrite Hc. reflexivity.
Qed.

End WithRuntime.
End InjectorTheory.

(* ===================================================================== *)
(** ** The beautifier node *)
(* ===================================================================== *)

Module BeautifierTheory.
Import Py Beautifier CircleFitTheory InjectorTheory.

(** A specification the injector can render: exactly one of runs and
    bullets, no empty run list, and a font size, when given, within the
    range of sizes. *)
Definition well_formed (st : Style) : Prop :=
  match runs st, bullets st with
  | Some rs, None => rs <> []
  | None, Some items => Forall (fun rs => rs <> []) items
  | _, _ => False
  end
  /\ match font_size st with
     | Some z => (8 <= z <= 72)%Z
     | None => True
     end.

Definition image_query_tag (st : Style) : Prop :=
  semantic_role st = Some (lit "image_query").

Lemma in_set {V} (d : Dict.t V) (k : str) (v : V) (k' : str) (v' : V) :
  In (k', v') (Dict.set d k v) -> In (k', v') d \/ v' = v.
Proof.
  induction d as [|[k0 v0] d IH]; cbn [Dict.set].
  - intros [[= _ <-] | []]. now right.
  - destruct (Py.eqb k0 k).
    + intros [[= _ <-] | Hin]; [now right | left; now right].
    + intros [E | Hin]; [left; now left|].
      destruct (IH Hin) as [Hd | Hv]; [left; now right | now right].
Qed.

(** A property of every specification of a dictionary survives a loop
    whose steps only add specifications that have it. *)
Lemma fold_left_invariant {A B} (P : A -> Prop) (f : A -> B -> A) (items : list B)
  (acc : A) :
  P acc -> (forall a b, P a -> P (f a b)) -> P (fold_left f items acc).
Proof.
  intros Hacc Hstep. revert acc Hacc.
  induction items as [|b items IH]; intros acc Hacc; [exact Hacc|].
  cbn [fold_left]. apply IH, Hstep, Hacc.
Qed.

Definition all_specs (P : Style -> Prop) (d : Dict.t Style) : Prop :=
  forall k st, In (k, st) d -> P st.

Lemma all_specs_set (P : Style -> Prop) (d : Dict.t Style) (k : str) (st : Style) :
  all_specs P d -> P st -> all_specs P (Dict.set d k st).
Proof.
  intros Hd Hst k' st' Hin.
  destruct (in_set _ _ _ _ _ Hin) as [Hold | ->]; [now apply (Hd k') | exact Hst].
Qed.

Section WithRuntime.
Context {rt : Runtime} {cfg : Config}.

Lemma parse_markdown_nonempty (txt : option str) : parse_markdown txt <> [].
Proof.
  destruct txt as [[|c s]|]; try discriminate.
  unfold parse_markdown.
  destruct (scan (c :: s) 0 false false [] []) as [[[b it] buf] rs].
  destruct (b || it); [discriminate|].
  destruct (flush b it buf rs); discriminate.
Qed.

Lemma determine_font_size_range (role_hint : option str) (area_ratio : float)
  (slide_role : str) :
  (8 <= _determine_font_size role_hint area_ratio slide_role <= 72)%Z.
Proof.
  unfold _determine_font_size.
  repeat match goal with
         | |- context [if ?c then _ else _] => destruct c
         end; vm_compute; split; discriminate.
Qed.

(** The specification the semantic path builds for a field. *)
Lemma semantic_field_specs (P : Style -> Prop) (layout : Layout) (slide_role : str)
  (mapping : Dict.t (list Slot)) (acc : Dict.t Style * list Event)
  (item : str * value) :
  (forall st, semantic_role st = Some (fst item) ->
              Py.eqb (fst item) (lit "image_query") = false ->
              well_formed st -> P st) ->
  all_specs P (fst acc) ->
  all_specs P (fst (beautify_semantic_field layout slide_role mapping acc item)).
Proof.
  intros Hnew Hacc. destruct acc as [styled log]. destruct item as [role raw].
  cbn [fst] in *. unfold beautify_semantic_field.
  destruct (startswith role (lit "_") 0); [exact Hacc|].
  destruct (Py.eqb role (lit "image_query")) eqn:Eiq; [exact Hacc|].
  destruct (Dict.get mapping role) as [[|slot rest]|]; try exact Hacc.
  destruct (slot_id slot) as [sid|]; [|exact Hacc].
  cbn [fst]. apply all_specs_set; [exact Hacc|].
  apply Hnew; [| reflexivity |].
  - destruct (Py.eqb role (lit "bullets")), raw; reflexivity.
  - assert (Hsize :
      match (if mem_str (or_empty (layout_name layout)) FORCE_FONT_SIZE_LAYOUTS
             then Some (_determine_font_size
                          (field_or (role_hint slot) (Some role))
                          (area_ratio_of (geometry slot)) slide_role)
             else None) with
      | Some z => (8 <= z <= 72)%Z
      | None => True
      end).
    { destruct (mem_str _ _); [apply determine_font_size_range | exact I]. }
    destruct (Py.eqb role (lit "bullets")), raw; (split; [|exact Hsize]);
      cbn [runs bullets]; try apply parse_markdown_nonempty.
    apply Forall_map, Forall_forall. intros v _. apply parse_markdown_nonempty.
Qed.

Lemma semantic_content_specs (P : Style -> Prop) (content : Dict.t value)
  (layout : Layout) (slide_role : str) (mapping : Dict.t (list Slot)) :
  (forall st, semantic_role st <> Some (lit "image_query") -> well_formed st -> P st) ->
  all_specs P (fst (_beautify_semantic_content content layout slide_role mapping)).
Proof.
  intros Hnew. unfold _beautify_semantic_content.
  apply fold_left_invariant with (P := fun acc => all_specs P (fst acc)).
  - intros k st [].
  - intros acc item Hacc. apply semantic_field_specs; [|exact Hacc].
    intros st Hrole Hneq Hwf. apply Hnew; [|exact Hwf].
    rewrite Hrole. intros [= E]. rewrite E, eqb_refl in Hneq. discriminate.
Qed.

(** The styled content does not depend on what was printed so far, and an
    [image_query] entry leaves it as it was. *)
Lemma semantic_field_styled (layout : Layout) (slide_role : str)
  (mapping : Dict.t (list Slot)) (styled : Dict.t Style) (log log' : list Event)
  (item : str * value) :
  fst (beautify_semantic_field layout slide_role mapping (styled, log) item)
  = fst (beautify_semantic_field layout slide_role mapping (styled, log') item).
Proof.
  destruct item as [role raw]. unfold beautify_semantic_field.
  destruct (startswith role (lit "_") 0); [reflexivity|].
  destruct (Py.eqb role (lit "image_query")); [reflexivity|].
  destruct (Dict.get mapping role) as [[|slot rest]|]; try reflexivity.
  destruct (slot_id slot); reflexivity.
Qed.

Lemma semantic_field_image_query (layout : Layout) (slide_role : str)
  (mapping : Dict.t (list Slot)) (acc : Dict.t Style * list Event) (raw : value) :
  fst (beautify_semantic_field layout slide_role mapping acc (lit "image_query", raw))
  = fst acc.
Proof. destruct acc as [styled log]. reflexivity. Qed.

Definition not_image_query (item : str * value) : bool :=
  negb (Py.eqb (fst item) (lit "image_query")).

Lemma semantic_fold_drops_image_query (layout : Layout) (slide_role : str)
  (mapping : Dict.t (list Slot)) (content : Dict.t value)
  (acc acc' : Dict.t Style * list Event) :
  fst acc = fst acc' ->
  fst (fold_left (beautify_semantic_field layout slide_role mapping) content acc)
  = fst (fold_left (beautify_semantic_field layout slide_role mapping)
                   (filter not_image_query content) acc').
Proof.
  revert acc acc'.
  induction content as [|[role raw] content IH]; intros [styled log] [styled' log'] E;
    cbn [fst] in E; subst styled'; [reflexivity|].
  cbn [fold_left filter]. unfold not_image_query at 1. cbn [fst].
  destruct (Py.eqb role (lit "image_query")) eqn:Eiq; cbn [negb].
  - apply eqb_eq in Eiq. subst role. apply IH.
    now rewrite semantic_field_image_query.
  - cbn [fold_left]. apply IH. apply semantic_field_styled.
Qed.










End WithRuntime.
End BeautifierTheory.

(* ===================================================================== *)
(** ** The claims on the beautifier node and the injector *)
(* ===================================================================== *)

Module PipelineClaims.
Import Py Beautifier Injector InjectorTheory BeautifierTheory.

(** A slide with one body placeholder that still shows the template's
    prompt, and the specification the beautifier produces for an empty
    field. *)
Definition prompt_slide : Slide :=
  [{| ph_idx := 1;
      ph_type := {| pt_name := lit "BODY"; pt_number := 2 |};
      ph_name := lit "Content Placeholder 2";
      text_frame :=
        Some {| paragraphs :=
                  [{| p_level := 0; p_alignment := None;
                      p_runs := [{| t_text := lit "Click to add text";
                                    t_bold := None; t_italic := None;
                                    t_size := None; t_color := None |}] |}];
                tf_vertical_anchor := None; tf_auto_size := None |} |}].

Definition empty_style : Style :=
  {| runs := Some [plain []]; bullets := None; font_size := Some 18%Z;
     alignment := None; semantic_role := None; vertical_anchor := None |}.

Section WithRuntime.
Context {rt : Runtime} {cfg : Config}.




(** Without a manifest or a registry in the state the node fails before
    it looks at the layouts. *)
Lemma beautifier_missing_keys {B : Type} (state : State B) :
  st_manifest state = None \/ st_registry state = None ->
  beautifier_node state = inl MissingKeys.
Proof.
  unfold beautifier_node.
  intros [E | E]; rewrite E; [reflexivity | destruct (st_manifest state); reflexivity].
Qed.

(** C10: on the semantic path the beautifier emits no specification tagged
    [image_query], and what it emits is what it would emit had the content
    no [image_query] entry; the injector leaves the slide alone for a
    specification with that tag; content with an [image_query] key always
    takes the semantic path; so the rendered slide is the one rendered from
    the content without the entry. *)
Theorem image_query_is_dropped :
  (forall content layout slide_role mapping key st,
      In (key, st) (fst (_beautify_semantic_content content layout slide_role mapping)) ->
      semantic_role st <> Some (lit "image_query"))
  /\ (forall content layout slide_role mapping,
        fst (_beautify_semantic_content content layout slide_role mapping)
        = fst (_beautify_semantic_content (filter not_image_query content)
                                          layout slide_role mapping))
  /\ (forall has_background slide slot_id st,
        semantic_role st = Some (lit "image_query") ->
        inject_semantic has_background slide slot_id st
        = (slide, [Injector.SkippedImageQuery], false))
  /\ (forall content : Dict.t value,
        Dict.mem content (lit "image_query") = true ->
        existsb (Dict.mem content) SEMANTIC_KEYS = true)
  /\ (forall content layout slide_role mapping has_background slide,
        render_content true has_background
          (fst (_beautify_semantic_content content layout slide_role mapping)) slide
        = render_content true has_background
            (fst (_beautify_semantic_content (filter not_image_query content)
                                             layout slide_role mapping)) slide).
Proof.
  assert (Hdrop : forall content layout slide_role mapping,
             fst (_beautify_semantic_content content layout slide_role mapping)
             = fst (_beautify_semantic_content (filter not_image_query content)
                                               layout slide_role mapping)).
  { intros. unfold _beautify_semantic_content.
    now apply semantic_fold_drops_image_query. }
  split; [|split; [exact Hdrop | split; [|split]]].
  - intros content layout slide_role mapping key st Hin.
    exact (semantic_content_specs (fun st => semantic_role st <> Some (lit "image_query"))
             content layout slide_role mapping (fun st Hne _ => Hne) key st Hin).
  - intros has_background slide slot_id st Htag.
    unfold inject_semantic. rewrite Htag. reflexivity.
  - intros content Hmem. cbn [existsb SEMANTIC_KEYS]. rewrite Hmem.
    now rewrite !orb_true_r.
  - intros. now rewrite <- Hdrop.
Qed.

End WithRuntime.


(** The same field, before and after: the prompt is gone. *)
Example legacy_path_prompt_gone :
  map (fun shape => option_map frame_text (text_frame shape)) prompt_slide
  = [Some (lit "Click to add text")]
  /\ map (fun shape => option_map frame_text (text_frame shape))
         (fst (fst (inject_legacy (rt := Sample.runtime) false prompt_slide (lit "1")
                                  empty_style)))
     = [Some []].
Proof. split; vm_compute; reflexivity. Qed.

End PipelineClaims.

(* ===================================================================== *)
(** ** More on markdown parsing *)
(* ===================================================================== *)

Module MarkdownSteps.
Import Py Beautifier MarkdownTheory.

(** Every character made literal: a backslash before each. *)
Definition escape (s : str) : str := flat_map (fun c => [BACKSLASH; c]) s.

Section WithRuntime.
Context {rt : Runtime}.

(** One turn of the loop, and its exit. *)
Lemma scan_done (s : str) (i : nat) (b it : bool) (buf : str) (rs : list Run) :
  len s <= i -> scan s i b it buf rs = (b, it, buf, rs).
Proof.
  intros Hle. funelim (scan s i b it buf rs); [reflexivity | lia].
Qed.

Lemma scan_turn (s : str) (i : nat) (b it : bool) (buf : str) (rs : list Run) :
  i < len s ->
  scan s i b it buf rs
  = if (getitem s i =? BACKSLASH)%N && (i + 1 <? len s) then
      scan s (i + 2) b it (buf ++ [getitem s (i + 1)]) rs
    else if startswith s MD_BOLD i
            && (_is_boundary s i && _is_boundary s (i + len MD_BOLD)) then
      scan s (i + len MD_BOLD) (negb b) it [] (flush b it buf rs)
    else if (getitem s i =? MD_ITALIC)%N
            && (_is_boundary s i && _is_boundary s (i + 1)) then
      scan s (i + 1) b (negb it) [] (flush b it buf rs)
    else scan s (i + 1) b it (buf ++ [getitem s i]) rs.
Proof.
  intros Hlt. funelim (scan s i b it buf rs); [lia | reflexivity].
Qed.

Lemma scan_escape (s : str) (i : nat) (b it : bool) (buf : str) (rs : list Run) :
  i + 1 < len s -> getitem s i = BACKSLASH ->
  scan s i b it buf rs = scan s (i + 2) b it (buf ++ [getitem s (i + 1)]) rs.
Proof.
  intros Hlt Hc. rewrite scan_turn by lia. rewrite Hc.
  apply Nat.ltb_lt in Hlt. now rewrite Hlt.
Qed.

Lemma scan_bold (s : str) (i : nat) (b it : bool) (buf : str) (rs : list Run) :
  startswith s MD_BOLD i = true ->
  scan s i b it buf rs = scan s (i + 2) (negb b) it [] (flush b it buf rs).
Proof.
  intros Hsw. destruct (startswith_bold _ _ Hsw) as (Hlt & H0 & H1).
  rewrite scan_turn by lia. rewrite H0. cbn [N.eqb MD_ITALIC BACKSLASH Pos.eqb andb].
  rewrite Hsw, (boundary_at_marker _ _ H0).
  change (len MD_BOLD) with 2. replace (i + 2) with (i + 1 + 1) by lia.
  rewrite (boundary_after_marker _ _ H1). reflexivity.
Qed.

Lemma scan_italic (s : str) (i : nat) (b it : bool) (buf : str) (rs : list Run) :
  i < len s -> getitem s i = MD_ITALIC -> startswith s MD_BOLD i = false ->
  scan s i b it buf rs = scan s (i + 1) b (negb it) [] (flush b it buf rs).
Proof.
  intros Hlt Hc Hsw. rewrite scan_turn by lia. rewrite Hc, Hsw.
  cbn [N.eqb MD_ITALIC BACKSLASH Pos.eqb andb].
  now rewrite (boundary_at_marker _ _ Hc), (boundary_after_marker _ _ Hc).
Qed.

Lemma scan_literal (s : str) (i : nat) (b it : bool) (buf : str) (rs : list Run) :
  i < len s -> getitem s i <> MD_ITALIC -> getitem s i <> BACKSLASH ->
  scan s i b it buf rs = scan s (i + 1) b it (buf ++ [getitem s i]) rs.
Proof.
  intros Hlt Hs Hb. rewrite scan_turn by lia.
  apply N.eqb_neq in Hb. rewrite Hb. cbn [andb].
  assert (Hsw : startswith s MD_BOLD i = false).
  { destruct (startswith s MD_BOLD i) eqn:E; [|reflexivity].
    apply startswith_bold in E. destruct E as (_ & E & _). contradiction. }
  rewrite Hsw. apply N.eqb_neq in Hs. now rewrite Hs.
Qed.

Lemma skipn_cons_inv (s : str) (i : nat) (c : N) (r : str) :
  skipn i s = c :: r -> i < len s /\ getitem s i = c /\ skipn (S i) s = r.
Proof.
  intros E. assert (Hlt : i < len s).
  { destruct (le_lt_dec (len s) i) as [Hle|Hlt]; [|exact Hlt].
    rewrite skipn_all2 in E by exact Hle. discriminate. }
  rewrite (@skipn_getitem s i Hlt) in E. inversion E. now repeat split.
Qed.

(** A stretch without asterisk or backslash goes to the buffer whole. *)
Lemma scan_segment (s t rest : str) (i : nat) (b it : bool) (buf : str)
  (rs : list Run) :
  skipn i s = t ++ rest -> unmarked t ->
  scan s i b it buf rs = scan s (i + len t) b it (buf ++ t) rs.
Proof.
  revert i buf. induction t as [|c t IH]; intros i buf E Hun.
  - cbn [len List.length]. now rewrite Nat.add_0_r, app_nil_r.
  - cbn [app] in E. apply skipn_cons_inv in E. destruct E as (Hlt & Hc & E).
    apply Forall_cons_iff in Hun. destruct Hun as [[Hs Hb] Hun].
    rewrite scan_literal by (rewrite ?Hc; assumption).
    replace (i + 1) with (S i) by lia.
    rewrite (IH (S i) (buf ++ [getitem s i]) E Hun).
    rewrite Hc, <- app_assoc. cbn [app len List.length].
    now replace (S i + len t) with (i + S (len t)) by (unfold len; lia).
Qed.

(** An escaped text goes to the buffer as it was before escaping. *)
Lemma scan_escaped (s t : str) (i : nat) (b it : bool) (buf : str) (rs : list Run) :
  skipn i s = escape t ->
  scan s i b it buf rs = (b, it, buf ++ t, rs).
Proof.
  revert i buf. induction t as [|c t IH]; intros i buf E.
  - cbn [escape flat_map] in E. rewrite app_nil_r. apply scan_done.
    destruct (le_lt_dec (len s) i) as [Hle|Hlt]; [exact Hle|].
    rewrite (@skipn_getitem s i Hlt) in E. discriminate.
  - cbn [escape flat_map app] in E. fold (escape t) in E.
    apply skipn_cons_inv in E. destruct E as (Hlt & Hc & E).
    apply skipn_cons_inv in E. destruct E as (Hlt' & Hc' & E).
    rewrite scan_escape by (try assumption; lia).
    replace (i + 1) with (S i) by lia. rewrite Hc'.
    replace (i + 2) with (S (S i)) by lia.
    rewrite (IH (S (S i)) (buf ++ [c]) E). now rewrite <- app_assoc.
Qed.

(** The runs the loop collects never have an empty text. *)
Lemma flush_nonempty (b it : bool) (buf : str) (rs : list Run) :
  Forall (fun r => text r <> []) rs ->
  Forall (fun r => text r <> []) (flush b it buf rs).
Proof.
  intros Hrs. destruct buf as [|c buf]; [exact Hrs|].
  cbn [flush]. apply Forall_app. split; [exact Hrs|].
  constructor; [discriminate | constructor].
Qed.

Lemma scan_nonempty (s : str) (i : nat) (b it : bool) (buf : str) (rs : list Run) :
  Forall (fun r => text r <> []) rs ->
  Forall (fun r => text r <> []) (snd (scan s i b it buf rs)).
Proof.
  funelim (scan s i b it buf rs); intros Hrs; [exact Hrs|].
  clear Heqcall.
  repeat match goal with
         | |- context [if ?c then _ else _] => destruct c
         end;
    match goal with
    | IH : _ -> Forall _ (snd ?x) |- Forall _ (snd ?x) => apply IH
    end; try exact Hrs; now apply flush_nonempty.
Qed.

End WithRuntime.
End MarkdownSteps.

Module MarkdownExtras.
Import Py Beautifier MarkdownTheory MarkdownSteps.

Section WithRuntime.
Context {rt : Runtime}.

(** X1: [parse_markdown] never returns an empty list, and never a run with
    an empty text, except for the single empty plain run. *)
Theorem parse_markdown_runs_nonempty (txt : option str) :
  parse_markdown txt <> []
  /\ (parse_markdown txt = [plain []]
      \/ Forall (fun r => text r <> []) (parse_markdown txt)).
Proof.
  destruct txt as [[|c s]|]; try (split; [discriminate | now left]).
  unfold parse_markdown.
  pose proof (@scan_nonempty _ (c :: s) 0 false false [] [] (Forall_nil _)) as Hrs.
  destruct (scan (c :: s) 0 false false [] []) as [[[b it] buf] rs].
  cbn [snd] in Hrs.
  pose proof (@flush_nonempty b it buf rs Hrs) as Hall.
  destruct (b || it).
  - split; [discriminate|].
    destruct (concat (map text (flush b it buf rs))) as [|d l] eqn:E.
    + now left.
    + right. constructor; [discriminate | constructor].
  - destruct (flush b it buf rs) as [|r rs'] eqn:E.
    + split; [discriminate | now left].
    + split; [discriminate | now right].
Qed.

(** X2: escaping is undone by parsing: a text with a backslash put before
    each of its characters, asterisks and backslashes included, comes back
    as one plain run holding the text. *)
Theorem parse_markdown_escaped (s : str) :
  parse_markdown (Some (escape s)) = [plain s].
Proof.
  destruct s as [|c s]; [reflexivity|].
  unfold parse_markdown.
  cbn [escape flat_map app]. fold (escape s).
  rewrite (@scan_escaped _ (BACKSLASH :: c :: escape s) (c :: s) 0 false false [] []
             eq_refl).
  reflexivity.
Qed.

(** X3: a text without asterisk or backslash, not empty, put between two
    bold markers comes back as one bold run, and put between two italic
    markers as one italic run. *)
Theorem parse_markdown_wrapped (s : str) :
  s <> [] -> unmarked s ->
  parse_markdown (Some (MD_BOLD ++ s ++ MD_BOLD)) = [mkRun s true false]
  /\ parse_markdown (Some ([MD_ITALIC] ++ s ++ [MD_ITALIC])) = [mkRun s false true].
Proof.
  intros Hne Hun. destruct s as [|c s]; [contradiction|].
  pose proof Hun as Hc. apply Forall_cons_iff in Hc. destruct Hc as [[Hcs Hcb] _].
  split.
  - set (S0 := MD_BOLD ++ (c :: s) ++ MD_BOLD).
    assert (Hlen : len S0 = 2 + len (c :: s) + 2).
    { unfold S0, len. rewrite !length_app. cbn. lia. }
    unfold parse_markdown. change (MD_BOLD ++ (c :: s) ++ MD_BOLD) with S0.
    assert (Hscan : scan S0 0 false false [] []
                    = (false, false, [], [mkRun (c :: s) true false])).
    { rewrite scan_bold by reflexivity. cbn [negb flush Nat.add].
      rewrite (@scan_segment _ S0 (c :: s) MD_BOLD 2 true false [] [] eq_refl Hun).
      cbn [app].
      rewrite scan_bold.
      - cbn [negb flush]. apply scan_done. rewrite Hlen. lia.
      - unfold startswith, S0.
        change (MD_BOLD ++ (c :: s) ++ MD_BOLD)
          with ((MD_BOLD ++ c :: s) ++ MD_BOLD) at 1.
        replace (2 + len (c :: s)) with (List.length (MD_BOLD ++ c :: s))
          by (rewrite length_app; reflexivity).
        rewrite <- app_assoc.
        replace (MD_BOLD ++ (c :: s) ++ MD_BOLD)
          with ((MD_BOLD ++ c :: s) ++ MD_BOLD) by now rewrite <- app_assoc.
        rewrite skipn_app, skipn_all, Nat.sub_diag. reflexivity. }
    destruct S0 as [|d S0'] eqn:ES; [discriminate|].
    rewrite Hscan. reflexivity.
  - set (S0 := [MD_ITALIC] ++ (c :: s) ++ [MD_ITALIC]).
    assert (Hlen : len S0 = 1 + len (c :: s) + 1).
    { unfold S0, len. rewrite !length_app. cbn. lia. }
    unfold parse_markdown. change ([MD_ITALIC] ++ (c :: s) ++ [MD_ITALIC]) with S0.
    assert (Hscan : scan S0 0 false false [] []
                    = (false, false, [], [mkRun (c :: s) false true])).
    { rewrite scan_italic; [| rewrite Hlen; lia | reflexivity |].
      2:{ destruct (startswith S0 MD_BOLD 0) eqn:E; [|reflexivity].
          apply startswith_bold in E. destruct E as (_ & _ & E).
          unfold S0 in E. cbn in E. contradiction. }
      cbn [negb flush Nat.add].
      rewrite (@scan_segment _ S0 (c :: s) [MD_ITALIC] 1 false true [] [] eq_refl Hun).
      cbn [app].
      assert (Hskip : skipn (1 + len (c :: s)) S0 = [MD_ITALIC]).
      { unfold S0.
        replace ([MD_ITALIC] ++ (c :: s) ++ [MD_ITALIC])
          with (([MD_ITALIC] ++ c :: s) ++ [MD_ITALIC]) by now rewrite <- app_assoc.
        replace (1 + len (c :: s)) with (List.length ([MD_ITALIC] ++ c :: s))
          by (rewrite length_app; reflexivity).
        now rewrite skipn_app, skipn_all, Nat.sub_diag. }
      pose proof (@skipn_cons_inv _ _ _ _ Hskip) as (Hlt & Hget & Hnext).
      rewrite scan_italic; [| exact Hlt | exact Hget |].
      - cbn [negb flush]. apply scan_done. rewrite Hlen. lia.
      - unfold startswith. rewrite Hskip. reflexivity. }
    destruct S0 as [|d S0'] eqn:ES; [discriminate|].
    rewrite Hscan. reflexivity.
Qed.

End WithRuntime.

Lemma parse_markdown_wrapped_witness :
  parse_markdown (rt := Sample.runtime) (Some (MD_BOLD ++ lit "Big" ++ MD_BOLD))
  = [mkRun (lit "Big") true false]
  /\ parse_markdown (rt := Sample.runtime) (Some ([MD_ITALIC] ++ lit "Big" ++ [MD_ITALIC]))
     = [mkRun (lit "Big") false true].
Proof.
  apply (parse_markdown_wrapped (rt := Sample.runtime)).
  - discriminate.
  - repeat constructor; discriminate.
Defined.

End MarkdownExtras.

(* ===================================================================== *)
(** ** More on sizes and alignment *)
(* ===================================================================== *)

Module StylingExtras.
Import Py Beautifier CircleFitTheory.
Local Open Scope float_scope.

Lemma ltb_leb (x y : float) : (x <? y) = true -> (x <=? y) = true.
Proof.
  rewrite ltb_spec, leb_spec. unfold SFltb, SFleb.
  destruct (SFcompare (Prim2SF x) (Prim2SF y)) as [[]|]; congruence.
Qed.

(** X4: the chord width is never negative and never NaN, whatever the
    arguments; it is zero for a radius that is not positive and at or
    beyond the edge of the circle. *)
Theorem chord_width_nonnegative (y_offset radius center_y : float) :
  (0 <=? _calculate_chord_width y_offset radius center_y) = true
  /\ ((radius <=? 0) = true ->
      _calculate_chord_width y_offset radius center_y = 0)
  /\ ((radius <=? abs (y_offset - center_y)) = true ->
      _calculate_chord_width y_offset radius center_y = 0).
Proof.
  unfold _calculate_chord_width. split; [|split].
  - destruct (radius <=? 0); [reflexivity|].
    destruct (radius <=? abs (y_offset - center_y)); [reflexivity|].
    destruct (0 <? 2 * sqrt (radius * radius
                             - abs (y_offset - center_y) * abs (y_offset - center_y)))
      eqn:E; [now apply ltb_leb | reflexivity].
  - intros ->. reflexivity.
  - intros ->. destruct (radius <=? 0); reflexivity.
Qed.

(** X5: the circle fit comes back for every text, run list, radius and
    padding, on a whole number of points from 8 to 71. *)
Theorem fit_text_in_circle_bounds (txt : str) (runs : list Run)
  (radius padding_ratio : float) :
  exists z, _fit_text_in_circle txt runs radius padding_ratio = Some z
            /\ (8 <= z <= 71)%Z.
Proof.
  unfold _fit_text_in_circle. cbv zeta.
  destruct (match txt with [] => true | _ => false end || (radius <=? 0)).
  { exists 8%Z. split; [exact int_of_min_font | lia]. }
  destruct (radius * (1 - padding_ratio) <=? 0).
  { exists 8%Z. split; [exact int_of_min_font | lia]. }
  destruct (search_in_range (fits_at txt (radius * (1 - padding_ratio))))
    as (r & z & Hs & Hz & Hb).
  rewrite Hs, Hz. exists z. split; [reflexivity | exact Hb].
Qed.

Lemma line_chars_lengths (line : list str) (acc : Z) :
  fold_left (fun a w => (a + (Z.of_nat (len w) + 1))%Z) line acc
  = fold_left (fun a n => (a + (Z.of_nat n + 1))%Z) (map len line) acc.
Proof.
  revert acc. induction line as [|w line IH]; intros acc; [reflexivity|].
  cbn [fold_left map]. apply IH.
Qed.

Lemma same_lengths_line_chars (line line' : list str) :
  map len line = map len line' -> line_chars line = line_chars line'.
Proof.
  intros E. unfold line_chars. now rewrite !line_chars_lengths, E.
Qed.

Lemma same_lengths_empty {A} (l l' : list str) (x y : A) :
  map len l = map len l' ->
  match l with [] => x | _ => y end = match l' with [] => x | _ => y end.
Proof. destruct l, l'; try discriminate; reflexivity. Qed.

(** Wrapping looks at the lengths of the words only. *)
Lemma wrap_words_lengths (mid_font line_height effective_radius : float)
  (words words' line line' : list str) (current_y : float) :
  map len words = map len words' -> map len line = map len line' ->
  let '(l1, y1, f1) :=
    wrap_words mid_font line_height effective_radius words line current_y in
  let '(l2, y2, f2) :=
    wrap_words mid_font line_height effective_radius words' line' current_y in
  map len l1 = map len l2 /\ y1 = y2 /\ f1 = f2.
Proof.
  revert words' line line' current_y.
  induction words as [|w words IH]; intros [|w' words'] line line' y Hw Hl;
    try discriminate.
  - cbn [wrap_words]. now repeat split.
  - cbn [map] in Hw. injection Hw as Hlen Hw.
    cbn [wrap_words]. cbv zeta.
    rewrite (same_lengths_line_chars _ _ Hl).
    rewrite (same_lengths_empty line line' false true Hl).
    destruct (match line' with [] => false | _ => true end
              && (_calculate_chord_width (y + line_height / 2) effective_radius 0
                  <? float_of_Z (line_chars line') * (mid_font * CHAR_WIDTH_RATIO) / 960)).
    + destruct (effective_radius <? y + line_height + line_height).
      * cbn [map]. now rewrite Hlen.
      * apply IH; [exact Hw | cbn [map]; now rewrite Hlen].
    + apply IH; [exact Hw|]. rewrite !map_app. cbn [map]. now rewrite Hl, Hlen.
Qed.

Lemma search_ext (fuel : nat) (f g : float -> bool) (lo hi best : float) :
  (forall m, f m = g m) -> search fuel f lo hi best = search fuel g lo hi best.
Proof.
  intros Hfg. revert lo hi best.
  induction fuel as [|fuel IH]; intros lo hi best; [reflexivity|].
  cbn [search]. rewrite Hfg, !IH. reflexivity.
Qed.

(** X6: the fitted size depends on the text only through the lengths of
    its words: two texts, both empty or both not, whose words have the
    same lengths in the same order get the same size in the same circle,
    whatever their characters, their spacing and their runs. *)
Theorem fit_text_in_circle_word_lengths (txt txt' : str) (runs runs' : list Run)
  (radius padding_ratio : float) :
  (txt = [] <-> txt' = []) ->
  map len (split txt) = map len (split txt') ->
  _fit_text_in_circle txt runs radius padding_ratio
  = _fit_text_in_circle txt' runs' radius padding_ratio.
Proof.
  intros Hempty Hwords. unfold _fit_text_in_circle. cbv zeta.
  assert (He : match txt with [] => true | _ => false end
               = match txt' with [] => true | _ => false end).
  { destruct txt, txt'; try reflexivity.
    - destruct Hempty as [Hempty _]. now specialize (Hempty eq_refl).
    - destruct Hempty as [_ Hempty]. now specialize (Hempty eq_refl). }
  rewrite He.
  destruct (match txt' with [] => true | _ => false end || (radius <=? 0));
    [reflexivity|].
  destruct (radius * (1 - padding_ratio) <=? 0); [reflexivity|].
  rewrite (@search_ext 64 (fits_at txt (radius * (1 - padding_ratio)))
                       (fits_at txt' (radius * (1 - padding_ratio)))); [reflexivity|].
  intros m. unfold fits_at. cbv zeta.
  pose proof (@wrap_words_lengths m (m * LINE_HEIGHT_RATIO / 720)
                (radius * (1 - padding_ratio)) (split txt) (split txt') [] []
                (- (radius * (1 - padding_ratio))) Hwords eq_refl) as Hw.
  destruct (wrap_words m _ _ (split txt) [] _) as [[l1 y1] f1].
  destruct (wrap_words m _ _ (split txt') [] _) as [[l2 y2] f2].
  destruct Hw as (Hl & -> & ->).
  now rewrite (same_lengths_empty l1 l2 false true Hl).
Qed.

Lemma fit_text_in_circle_word_lengths_witness :
  _fit_text_in_circle (lit "High Performance") [plain (lit "High Performance")]
                      0x1.999999999999ap-4 TEXT_PADDING_RATIO
  = _fit_text_in_circle (lit " zzzz   12345678901 ") []
                        0x1.999999999999ap-4 TEXT_PADDING_RATIO.
Proof.
  apply fit_text_in_circle_word_lengths.
  - split; discriminate.
  - reflexivity.
Defined.

Section WithRuntime.
Context {rt : Runtime}.

(** X7: the size from the table is one of its constants, from 10 to 44
    points, for every role hint, area ratio and slide role. *)
Theorem determine_font_size_bounds (role_hint : option str) (area_ratio : float)
  (slide_role : str) :
  (10 <= _determine_font_size role_hint area_ratio slide_role <= 44)%Z.
Proof.
  unfold _determine_font_size.
  repeat match goal with
         | |- context [if ?c then _ else _] => destruct c
         end; vm_compute; split; discriminate.
Qed.

(** X8: a title slide never gives a field a smaller size than another
    slide gives the same role hint and area, unless the role hint names
    both [content] and [footer]. *)
Theorem title_slide_not_smaller (role_hint : option str) (area_ratio : float)
  (slide_role : str) :
  contains (lit "content") (lower (or_empty role_hint))
  && contains (lit "footer") (lower (or_empty role_hint)) = false ->
  (_determine_font_size role_hint area_ratio slide_role
   <= _determine_font_size role_hint area_ratio ROLE_TITLE)%Z.
Proof.
  intros Hboth. unfold _determine_font_size.
  change (Py.eqb ROLE_TITLE ROLE_TITLE) with true. cbv iota.
  destruct (Py.eqb slide_role ROLE_TITLE); [apply Z.le_refl|].
  destruct (contains (lit "title") (lower (or_empty role_hint))
            || contains (lit "header") (lower (or_empty role_hint))
            || contains (lit "headline") (lower (or_empty role_hint))).
  { destruct (AREA_THRESHOLD_TITLE <? area_ratio); vm_compute; discriminate. }
  destruct (contains (lit "body") (lower (or_empty role_hint))).
  { rewrite orb_true_r.
    destruct (AREA_THRESHOLD_BODY <? area_ratio); vm_compute; discriminate. }
  destruct (contains (lit "subtitle") (lower (or_empty role_hint))).
  { cbn [orb].
    destruct (contains (lit "content") (lower (or_empty role_hint))), 
             (contains (lit "footer") (lower (or_empty role_hint)));
      repeat match goal with
             | |- context [if ?c then _ else _] => destruct c
             end; vm_compute; discriminate. }
  cbn [orb].
  destruct (contains (lit "content") (lower (or_empty role_hint))),
           (contains (lit "footer") (lower (or_empty role_hint)));
    try discriminate Hboth;
    repeat match goal with
           | |- context [if ?c then _ else _] => destruct c
           end; vm_compute; discriminate.
Qed.

(** X9: the alignment is CENTER, RIGHT or left to the template, never
    LEFT; it is CENTER on every title slide and for every title field. *)
Theorem alignment_never_left (role_hint semantic_role slide_role : option str) :
  (_alignment_for_role role_hint semantic_role slide_role = None
   \/ _alignment_for_role role_hint semantic_role slide_role = Some (lit "CENTER")
   \/ _alignment_for_role role_hint semantic_role slide_role = Some (lit "RIGHT"))
  /\ _alignment_for_role role_hint semantic_role (Some ROLE_TITLE)
     = Some (lit "CENTER")
  /\ _alignment_for_role role_hint (Some (lit "title")) slide_role
     = Some (lit "CENTER").
Proof.
  split; [|split].
  - unfold _alignment_for_role.
    repeat match goal with
           | |- context [if ?c then _ else _] => destruct c
           end; auto.
  - reflexivity.
  - unfold _alignment_for_role.
    change (Py.eqb (lit "title") (lit "title")) with true.
    now rewrite orb_true_r.
Qed.

End WithRuntime.

Lemma title_slide_not_smaller_witness :
  (_determine_font_size (rt := Sample.runtime) (Some (lit "body"))
                        0x1.999999999999ap-2 ROLE_CONTENT
   <= _determine_font_size (rt := Sample.runtime) (Some (lit "body"))
                           0x1.999999999999ap-2 ROLE_TITLE)%Z.
Proof.
  apply (title_slide_not_smaller (rt := Sample.runtime)). reflexivity.
Defined.

End StylingExtras.

(* ===================================================================== *)
(** ** More on the beautifier node *)
(* ===================================================================== *)

Module NodeExtras.
Import Py Beautifier CircleFitTheory InjectorTheory BeautifierTheory.

Lemma get_set {V} (d : Dict.t V) (k k' : str) (v : V) :
  Dict.get (Dict.set d k v) k' = if Py.eqb k k' then Some v else Dict.get d k'.
Proof.
  induction d as [|[k0 v0] d IH]; cbn [Dict.set Dict.get]; [reflexivity|].
  destruct (Py.eqb k0 k) eqn:E0; cbn [Dict.get].
  - apply eqb_eq in E0. subst k0. destruct (Py.eqb k k'); reflexivity.
  - rewrite IH. destruct (Py.eqb k0 k') eqn:E1; [|reflexivity].
    destruct (Py.eqb k k') eqn:E2; [|reflexivity].
    apply eqb_eq in E1. apply eqb_eq in E2. subst. rewrite eqb_refl in E0.
    discriminate.
Qed.


Section WithRuntime.
Context {rt : Runtime} {cfg : Config}.

(** Where a specification of the semantic path comes from. *)
Definition from_field (content : Dict.t value) (layout : Layout) (slide_role : str)
  (mapping : Dict.t (list Slot)) (key : str) (st : Style) : Prop :=
  exists role raw slot rest sid,
    In (role, raw) content
    /\ startswith role (lit "_") 0 = false
    /\ role <> lit "image_query"
    /\ Dict.get mapping role = Some (slot :: rest)
    /\ slot_id slot = Some sid
    /\ key = str_of_Z sid
    /\ semantic_role st = Some role
    /\ font_size st
       = (if mem_str (or_empty (layout_name layout)) FORCE_FONT_SIZE_LAYOUTS
          then Some (_determine_font_size (field_or (role_hint slot) (Some role))
                                          (area_ratio_of (geometry slot)) slide_role)
          else None)
    /\ alignment st
       = _alignment_for_role (field_or (role_hint slot) (Some role)) (Some role)
                             (Some slide_role).

Lemma semantic_field_from (content : Dict.t value) (layout : Layout)
  (slide_role : str) (mapping : Dict.t (list Slot))
  (acc : Dict.t Style * list Event) (item : str * value) :
  In item content ->
  (forall k st, In (k, st) (fst acc) ->
                from_field content layout slide_role mapping k st) ->
  forall k st,
    In (k, st) (fst (beautify_semantic_field layout slide_role mapping acc item)) ->
    from_field content layout slide_role mapping k st.
Proof.
  intros Hin Hacc. destruct acc as [styled log]. destruct item as [role raw].
  cbn [fst] in *. unfold beautify_semantic_field.
  destruct (startswith role (lit "_") 0) eqn:Eu; [exact Hacc|].
  destruct (Py.eqb role (lit "image_query")) eqn:Eiq; [exact Hacc|].
  destruct (Dict.get mapping role) as [[|slot rest]|] eqn:Em; try exact Hacc.
  destruct (slot_id slot) as [sid|] eqn:Es; [|exact Hacc].
  cbn [fst]. intros k st Hk.
  destruct (in_set _ _ _ _ _ Hk) as [Hold | Hnew]; [now apply Hacc|].
  assert (Hkey : In (k, st) styled \/ k = str_of_Z sid).
  { clear -Hk. induction styled as [|[k0 v0] d IH]; cbn [Dict.set] in Hk.
    - destruct Hk as [[= <- _] | []]. now right.
    - destruct (Py.eqb k0 (str_of_Z sid)) eqn:E.
      + destruct Hk as [[= <- _] | Hk]; [right; now apply eqb_eq | left; now right].
      + destruct Hk as [E' | Hk]; [left; now left|].
        destruct (IH Hk) as [Hl | Hr]; [left; now right | now right]. }
  destruct Hkey as [Hold | ->]; [now apply Hacc|].
  exists role, raw, slot, rest, sid.
  repeat split; try assumption; try reflexivity.
  - intros ->. discriminate.
  - subst st. destruct (Py.eqb role (lit "bullets")), raw; reflexivity.
  - subst st. destruct (Py.eqb role (lit "bullets")), raw; reflexivity.
  - subst st. destruct (Py.eqb role (lit "bullets")), raw; reflexivity.
Qed.

Lemma semantic_fold_from (content : Dict.t value) (layout : Layout)
  (slide_role : str) (mapping : Dict.t (list Slot)) (items : Dict.t value)
  (acc : Dict.t Style * list Event) :
  incl items content ->
  (forall k st, In (k, st) (fst acc) ->
                from_field content layout slide_role mapping k st) ->
  forall k st,
    In (k, st) (fst (fold_left (beautify_semantic_field layout slide_role mapping)
                               items acc)) ->
    from_field content layout slide_role mapping k st.
Proof.
  revert acc. induction items as [|item items IH]; intros acc Hincl Hacc;
    [exact Hacc|].
  cbn [fold_left]. apply IH.
  - intros x Hx. apply Hincl. now right.
  - apply semantic_field_from; [apply Hincl; now left | exact Hacc].
Qed.

(** X10: on the semantic path every specification comes from a content
    field whose key neither starts with an underscore nor is
    [image_query], and that has a first mapped slot with a slot id: it is
    stored under that id, tagged with the field's key, and sized only when
    the layout's name is among FORCE_FONT_SIZE_LAYOUTS, otherwise left to
    the template (no font size). *)
Theorem semantic_content_from_fields (content : Dict.t value) (layout : Layout)
  (slide_role : str) (mapping : Dict.t (list Slot)) (key : str) (st : Style) :
  In (key, st) (fst (_beautify_semantic_content content layout slide_role mapping)) ->
  from_field content layout slide_role mapping key st
  /\ (mem_str (or_empty (layout_name layout)) FORCE_FONT_SIZE_LAYOUTS = false ->
      font_size st = None).
Proof.
  intros Hin.
  assert (Hfrom : from_field content layout slide_role mapping key st).
  { unfold _beautify_semantic_content in Hin.
    apply (@semantic_fold_from content layout slide_role mapping content ([], []));
      [apply incl_refl | intros k s [] | exact Hin]. }
  split; [exact Hfrom|].
  intros Hforce. destruct Hfrom as (role & raw & slot & rest & sid & H).
  destruct H as (_ & _ & _ & _ & _ & _ & _ & Hsize & _).
  now rewrite Hforce in Hsize.
Qed.

(** X11: a field whose content is [None] is styled, on the legacy path, as
    the one empty plain run, not as the text [None]; on the semantic path
    the same content is styled as the text [None]. *)
Theorem none_content_runs (layout : Layout) (slide_role : str)
  (acc : Dict.t Style * list Event) (slot_key : str) :
  (exists acc' st,
      beautify_slot layout slide_role acc (slot_key, VNone) = inr acc'
      /\ Dict.get (fst acc') slot_key = Some st
      /\ runs st = Some [plain []])
  /\ (forall mapping role slot rest sid,
         startswith role (lit "_") 0 = false ->
         Py.eqb role (lit "image_query") = false ->
         Dict.get mapping role = Some (slot :: rest) ->
         slot_id slot = Some sid ->
         exists st,
           Dict.get (fst (beautify_semantic_field layout slide_role mapping acc
                                                  (role, VNone)))
                    (str_of_Z sid) = Some st
           /\ runs st = Some [plain (lit "None")]).
Proof.
  split.
  - destruct acc as [styled log].
    unfold beautify_slot. cbv zeta.
    change (parse_markdown (Some [])) with [plain []].
    cbn [len List.length].
    set (log1 := match slot_meta_by_id (slots layout) (_safe_int slot_key) with
                 | Some sm => _ | None => log end).
    clearbody log1.
    assert (Hadd : forall fs al lg,
               exists acc' st,
                 inr (Dict.set styled slot_key
                        {| runs := Some [plain []]; bullets := None;
                           font_size := Some fs; alignment := al;
                           semantic_role := None; vertical_anchor := None |}, lg)
                 = (inr acc' : Error + Dict.t Style * list Event)
                 /\ Dict.get (fst acc') slot_key = Some st
                 /\ runs st = Some [plain []]).
    { intros fs al lg. eexists. eexists. split; [reflexivity|].
      cbn [fst]. rewrite get_set, eqb_refl. split; reflexivity. }
    destruct (slot_meta_by_id (slots layout) (_safe_int slot_key)) as [sm|];
      [|apply Hadd].
    destruct (match is_circular (geometry sm) with Some b => b | None => false end);
      [|apply Hadd].
    destruct (radius (geometry sm)) as [r|]; [|apply Hadd].
    destruct (negb (r =? 0)%float && (0 <? r)%float); [|apply Hadd].
    destruct (fit_returns [] [plain []] r TEXT_PADDING_RATIO) as (z & Hz & _).
    rewrite Hz. apply Hadd.
  - intros mapping role slot rest sid Hu Hiq Hm Hs.
    destruct acc as [styled log]. unfold beautify_semantic_field.
    rewrite Hu, Hiq, Hm, Hs. cbn [fst].
    rewrite get_set, eqb_refl. eexists. split; [reflexivity|].
    destruct (Py.eqb role (lit "bullets")); vm_compute; reflexivity.
Qed.







Lemma find_absent {A} (f : A -> bool) (l : list A) :
  (forall x, In x l -> f x = false) -> find f l = None.
Proof.
  induction l as [|x l IH]; intros Hall; [reflexivity|].
  cbn [find]. rewrite (Hall x (or_introl eq_refl)).
  apply IH. intros y Hy. apply Hall. now right.
Qed.

(** X13: on the legacy path a field whose key is no number, or the number
    of no slot of the layout, is styled all the same and stored under its
    key: at 16 points, aligned LEFT, with the runs of its text, and nothing
    is printed about it. *)
Theorem unknown_slot_fallback (layout : Layout) (slide_role : str)
  (acc : Dict.t Style * list Event) (slot_key : str) (raw_text : value) :
  (forall z, _safe_int slot_key = Some z ->
             Forall (fun sm => slot_id sm <> Some z) (slots layout)) ->
  exists st,
    beautify_slot layout slide_role acc (slot_key, raw_text)
    = inr (Dict.set (fst acc) slot_key st, snd acc)
    /\ font_size st = Some 16%Z
    /\ alignment st = Some (lit "LEFT")
    /\ runs st
       = Some (parse_markdown
                 (Some match raw_text with VNone => [] | _ => to_str raw_text end)).
Proof.
  intros Hno.
  assert (Hmeta : slot_meta_by_id (slots layout) (_safe_int slot_key) = None).
  { unfold slot_meta_by_id. destruct (_safe_int slot_key) as [z|]; [|reflexivity].
    apply find_absent. intros sm Hin. apply in_rev in Hin.
    pose proof (Hno z eq_refl) as Hall. rewrite Forall_forall in Hall.
    specialize (Hall sm Hin).
    destruct (slot_id sm) as [z'|]; [|reflexivity].
    destruct (z' =? z)%Z eqn:E; [|reflexivity].
    apply Z.eqb_eq in E. now subst z'. }
  destruct acc as [styled log]. unfold beautify_slot. cbv zeta. rewrite Hmeta.
  eexists. split; [reflexivity|]. cbn [font_size alignment runs].
  split; [reflexivity|]. split; reflexivity.
Qed.

End WithRuntime.

(** The settings when the environment sets neither variable. *)
Definition default_config : Config :=
  {| FORCE_FONT_SIZE_LAYOUTS := [lit "KPI_TILE"; lit "METRIC_CARD"];
     ENABLE_AUTOFIT_ROLES := [lit "caption"; lit "circular_text"] |}.

(** A semantic slide with a title, an image query and a metadata field,
    the slot the writer mapped the title to, and the specification the
    title gets. *)
Definition title_content : Dict.t value :=
  [(lit "title", VStr (lit "Q3 **results**"));
   (lit "image_query", VStr (lit "chart"));
   (lit "_note", VNone)].

Definition title_mapping : Dict.t (list Slot) :=
  [(lit "title",
    [{| slot_id := Some 0%Z; role_hint := Missing;
        geometry := {| area_ratio := None; is_circular := None; radius := None |};
        max_chars := None |}])].

Definition plain_layout : Layout :=
  {| layout_index := 1; layout_name := Some (lit "Title and Content"); slots := [] |}.

Definition title_style : Style :=
  {| runs := Some [mkRun (lit "Q3 ") false false; mkRun (lit "results") true false];
     bullets := None; font_size := None; alignment := Some (lit "CENTER");
     semantic_role := Some (lit "title"); vertical_anchor := None |}.

Lemma semantic_content_from_fields_witness :
  from_field (rt := Sample.runtime) (cfg := default_config)
             title_content plain_layout (lit "CONTENT") title_mapping (lit "0")
             title_style
  /\ (mem_str (or_empty (layout_name plain_layout))
              (FORCE_FONT_SIZE_LAYOUTS (Config := default_config)) = false ->
      font_size title_style = None).
Proof.
  apply (@semantic_content_from_fields Sample.runtime default_config).
  vm_compute. left. reflexivity.
Defined.

Lemma unknown_slot_fallback_witness :
  exists st,
    beautify_slot (rt := Sample.runtime) plain_layout (lit "CONTENT") ([], [])
                  (lit "subtitle", VStr (lit "Outlook"))
    = inr ([(lit "subtitle", st)], [])
    /\ font_size st = Some 16%Z
    /\ alignment st = Some (lit "LEFT")
    /\ runs st = Some (parse_markdown (rt := Sample.runtime) (Some (lit "Outlook"))).
Proof.
  refine (@unknown_slot_fallback Sample.runtime plain_layout (lit "CONTENT") ([], [])
            (lit "subtitle") (VStr (lit "Outlook")) _).
  intros z Hz. discriminate Hz.
Defined.

End NodeExtras.

(* ===================================================================== *)
(** ** injector.py: resolving a placeholder by semantic role *)
(* ===================================================================== *)

Module Resolver.
Import Py Beautifier Injector.

(** The identity fields of a slot dictionary; a missing key is [None]. *)
Record SlotIdentity := {
  id_semantic_role : option str;
  id_placeholder_idx : option Z;
  id_placeholder_type : option str;
  id_placeholder_name : option str
}.

(** [s.split(c)[0]]: what comes before the first [c]. *)
Fixpoint before (c : N) (s : str) : str :=
  match s with
  | [] => []
  | d :: s' => if (d =? c)%N then [] else d :: before c s'
  end.

Definition PAREN : N := 40.

(** The type name of ["TITLE (1)"] is ["TITLE"]. *)
Definition type_name_of (placeholder_type : str) : str :=
  if existsb (N.eqb PAREN) placeholder_type
  then strip (before PAREN placeholder_type)
  else placeholder_type.

Definition has_role (semantic_role : str) (s : SlotIdentity) : bool :=
  match id_semantic_role s with
  | Some r => Py.eqb r semantic_role
  | None => false
  end.

Definition by_idx (idx : Z) (shape : Shape) : bool := (ph_idx shape =? idx)%Z.

Definition by_type (type_name : str) (shape : Shape) : bool :=
  contains type_name (type_str (ph_type shape)).

Definition by_name (placeholder_name : str) (shape : Shape) : bool :=
  Py.eqb (ph_name shape) placeholder_name.

Definition find_placeholder_by_semantic_role (slide : Slide) (semantic_role : str)
  (slot_metadata : list SlotIdentity) : option Shape :=
  match filter (has_role semantic_role) slot_metadata with
  | [] => None
  | target_slot :: _ =>
      let tier1 :=
        match id_placeholder_idx target_slot with
        | Some placeholder_idx => find (by_idx placeholder_idx) slide
        | None => None
        end in
      match tier1 with
      | Some shape => Some shape
      | None =>
          let placeholder_type := or_empty (id_placeholder_type target_slot) in
          let tier2 :=
            match placeholder_type with
            | [] => None
            | _ => find (by_type (type_name_of placeholder_type)) slide
            end in
          match tier2 with
          | Some shape => Some shape
          | None =>
              match id_placeholder_name target_slot with
              | Some (c :: n) => find (by_name (c :: n)) slide
              | _ => None
              end
          end
      end
  end.

End Resolver.

Module ResolverExtras.
Import Py Beautifier Injector Resolver.

(** X14: what the resolver returns is a placeholder of the slide that
    matches the first slot of the role by index, by type name or by name;
    without a slot of the role it returns nothing. *)
Theorem resolved_placeholder_matches (slide : Slide) (semantic_role : str)
  (slot_metadata : list SlotIdentity) :
  (filter (has_role semantic_role) slot_metadata = [] ->
   find_placeholder_by_semantic_role slide semantic_role slot_metadata = None)
  /\ forall shape,
       find_placeholder_by_semantic_role slide semantic_role slot_metadata
       = Some shape ->
       In shape slide
       /\ exists target_slot rest,
            filter (has_role semantic_role) slot_metadata = target_slot :: rest
            /\ (id_placeholder_idx target_slot = Some (ph_idx shape)
                \/ by_type (type_name_of (or_empty (id_placeholder_type target_slot)))
                           shape = true
                \/ id_placeholder_name target_slot = Some (ph_name shape)).
Proof.
  unfold find_placeholder_by_semantic_role. split.
  - intros ->. reflexivity.
  - intros shape.
    destruct (filter (has_role semantic_role) slot_metadata) as [|slot rest];
      [discriminate|]. cbv zeta.
    destruct (match id_placeholder_idx slot with
              | Some i => find (by_idx i) slide
              | None => None
              end) as [s1|] eqn:E1.
    { intros [= ->].
      destruct (id_placeholder_idx slot) as [i|] eqn:Ei; [|discriminate].
      apply find_some in E1. destruct E1 as [Hin Hm].
      split; [exact Hin|]. exists slot, rest. split; [reflexivity|].
      left. unfold by_idx in Hm. apply Z.eqb_eq in Hm. now rewrite Hm. }
    destruct (match or_empty (id_placeholder_type slot) with
              | [] => None
              | _ => find (by_type (type_name_of (or_empty (id_placeholder_type slot))))
                          slide
              end) as [s2|] eqn:E2.
    { intros [= ->].
      destruct (or_empty (id_placeholder_type slot)) as [|c t] eqn:Et; [discriminate|].
      apply find_some in E2. destruct E2 as [Hin Hm].
      split; [exact Hin|]. exists slot, rest. split; [reflexivity|].
      right. left. rewrite Et. exact Hm. }
    destruct (id_placeholder_name slot) as [[|c n]|] eqn:En; try discriminate.
    intros Hf. apply find_some in Hf. destruct Hf as [Hin Hm].
    split; [exact Hin|]. exists slot, rest. split; [reflexivity|].
    right. right. unfold by_name in Hm. apply InjectorTheory.eqb_eq in Hm.
    now rewrite Hm.
Qed.

(** X15: the tiers are tried in order.  When a placeholder has the index
    of the slot, the first such placeholder is returned; when the slot has
    no index, or no placeholder has it, and the slot's type is not empty,
    the first placeholder whose type string contains the type name is
    returned. *)
Theorem resolver_tiers (slide : Slide) (semantic_role : str)
  (slot_metadata rest : list SlotIdentity) (target_slot : SlotIdentity) :
  filter (has_role semantic_role) slot_metadata = target_slot :: rest ->
  (forall idx shape,
      id_placeholder_idx target_slot = Some idx ->
      find (by_idx idx) slide = Some shape ->
      find_placeholder_by_semantic_role slide semantic_role slot_metadata
      = Some shape)
  /\ (forall shape,
        match id_placeholder_idx target_slot with
        | Some idx => find (by_idx idx) slide = None
        | None => True
        end ->
        or_empty (id_placeholder_type target_slot) <> [] ->
        find (by_type (type_name_of (or_empty (id_placeholder_type target_slot))))
             slide = Some shape ->
        find_placeholder_by_semantic_role slide semantic_role slot_metadata
        = Some shape).
Proof.
  intros Hslot. unfold find_placeholder_by_semantic_role. rewrite Hslot. cbv zeta.
  split.
  - intros idx shape Hidx Hfind. now rewrite Hidx, Hfind.
  - intros shape Hmiss Htype Hfind.
    assert (E1 : match id_placeholder_idx target_slot with
                 | Some i => find (by_idx i) slide
                 | None => None
                 end = None).
    { destruct (id_placeholder_idx target_slot); [exact Hmiss | reflexivity]. }
    rewrite E1.
    destruct (or_empty (id_placeholder_type target_slot)) as [|c t] eqn:Et;
      [contradiction|].
    now rewrite Hfind.
Qed.

(** A slide whose title placeholder has another index and another name
    than the registry recorded, and the slot the registry recorded. *)
Definition renumbered_slide : Slide :=
  [{| ph_idx := 10;
      ph_type := {| pt_name := lit "BODY"; pt_number := 2 |};
      ph_name := lit "Text Placeholder 9";
      text_frame := None |};
   {| ph_idx := 11;
      ph_type := {| pt_name := lit "TITLE"; pt_number := 1 |};
      ph_name := lit "Title 10";
      text_frame := None |}].

Definition recorded_title : SlotIdentity :=
  {| id_semantic_role := Some (lit "title");
     id_placeholder_idx := Some 0%Z;
     id_placeholder_type := Some (lit "TITLE (1)");
     id_placeholder_name := Some (lit "Title 1") |}.

Lemma resolver_tiers_witness :
  find_placeholder_by_semantic_role renumbered_slide (lit "title") [recorded_title]
  = nth_error renumbered_slide 1.
Proof.
  refine (proj2 (@resolver_tiers renumbered_slide (lit "title") [recorded_title] []
                   recorded_title eq_refl) _ _ _ _).
  - reflexivity.
  - discriminate.
  - reflexivity.
Defined.

End ResolverExtras.

(* ===================================================================== *)
(** ** More on the injector *)
(* ===================================================================== *)

Module InjectorSteps.
Import Py Beautifier Injector InjectorTheory.

(** Writing a text frame back changes no placeholder's identity. *)
Lemma update_frame_identity (slide : Slide) (sid : Z) (tf : TextFrame) :
  map ph_idx (update_frame slide sid tf) = map ph_idx slide
  /\ map ph_type (update_frame slide sid tf) = map ph_type slide
  /\ map ph_name (update_frame slide sid tf) = map ph_name slide.
Proof.
  induction slide as [|s slide (IH1 & IH2 & IH3)]; [now repeat split|].
  cbn [update_frame]. destruct (ph_idx s =? sid)%Z; cbn [map ph_idx ph_type ph_name].
  - now repeat split.
  - now rewrite IH1, IH2, IH3.
Qed.







Section WithRuntime.
Context {rt : Runtime} {cfg : Config}.

(** A field either leaves the slide as it is or writes one text frame
    back, to the placeholder its key names. *)
Lemma inject_semantic_slide (has_background : bool) (slide : Slide)
  (slot_id : str) (style : Style) :
  fst (fst (inject_semantic has_background slide slot_id style)) = slide
  \/ exists sid tf,
       int_of_str slot_id = Some sid
       /\ fst (fst (inject_semantic has_background slide slot_id style))
          = update_frame slide sid tf.
Proof.
  unfold inject_semantic.
  destruct (match semantic_role style with
            | Some r => Py.eqb r (lit "image_query")
            | None => false
            end); [now left|].
  destruct (int_of_str slot_id) as [sid|]; [|now left].
  destruct (find_placeholder_by_id slide sid) as [shape|]; [|now left].
  destruct (text_frame shape) as [tf|]; [|now left].
  destruct (negb (has_content style)); [now left|].
  right. eexists. eexists. split; reflexivity.
Qed.

Lemma inject_legacy_slide (has_background : bool) (slide : Slide)
  (slot_id : str) (style : Style) :
  fst (fst (inject_legacy has_background slide slot_id style)) = slide
  \/ exists sid tf,
       int_of_str slot_id = Some sid
       /\ fst (fst (inject_legacy has_background slide slot_id style))
          = update_frame slide sid tf.
Proof.
  unfold inject_legacy.
  destruct (int_of_str slot_id) as [sid|]; [|now left].
  destruct (find_placeholder_by_id slide sid) as [shape|]; [|now left].
  destruct (text_frame shape) as [tf|]; [|now left].
  cbv zeta.
  destruct (_is_template_header (frame_text tf) (TypeStr (type_str (ph_type shape)))
            && negb (has_runs (or_nil (runs style))));
    right; eexists; eexists; split; reflexivity.
Qed.

(** What a slide keeps through the loop over its styled content. *)
Definition kept (content : Dict.t Style) (slide slide' : Slide) : Prop :=
  map ph_idx slide' = map ph_idx slide
  /\ map ph_type slide' = map ph_type slide
  /\ map ph_name slide' = map ph_name slide
  /\ forall other,
       (forall key st, In (key, st) content -> int_of_str key <> Some other) ->
       find_placeholder_by_id slide' other = find_placeholder_by_id slide other.

Lemma kept_step (is_semantic has_background : bool) (content : Dict.t Style)
  (slide slide' : Slide) (slot_id : str) (style : Style) :
  In (slot_id, style) content ->
  kept content slide slide' ->
  kept content slide
       (fst (fst ((if is_semantic then inject_semantic else inject_legacy)
                    has_background slide' slot_id style))).
Proof.
  intros Hin (Hidx & Htype & Hname & Hother).
  assert (Hstep :
            fst (fst ((if is_semantic then inject_semantic else inject_legacy)
                        has_background slide' slot_id style)) = slide'
            \/ exists sid tf,
                 int_of_str slot_id = Some sid
                 /\ fst (fst ((if is_semantic then inject_semantic else inject_legacy)
                                has_background slide' slot_id style))
                    = update_frame slide' sid tf).
  { destruct is_semantic; [apply inject_semantic_slide | apply inject_legacy_slide]. }
  destruct Hstep as [-> | (sid & tf & Hsid & ->)]; [now repeat split|].
  destruct (update_frame_identity slide' sid tf) as (U1 & U2 & U3).
  split; [now rewrite U1|]. split; [now rewrite U2|]. split; [now rewrite U3|].
  intros other Hkeys. rewrite find_update_frame_other; [now apply Hother|].
  intros ->. now apply (Hkeys slot_id style Hin).
Qed.

Lemma kept_fold (is_semantic has_background : bool) (content items : Dict.t Style)
  (slide : Slide) (acc : Slide * list Event * list str) :
  incl items content ->
  kept content slide (fst (fst acc)) ->
  kept content slide
    (fst (fst (fold_left
                 (fun acc item =>
                    let '(slide, log, rendered_fields) := acc in
                    let '(slot_id, style) := item in
                    let '(slide, log', ok) :=
                      (if is_semantic then inject_semantic else inject_legacy)
                        has_background slide slot_id style in
                    (slide, log ++ log',
                     if ok then rendered_fields ++ [slot_id] else rendered_fields))
                 items acc))).
Proof.
  revert acc. induction items as [|[slot_id style] items IH]; intros acc Hincl Hacc;
    [exact Hacc|].
  cbn [fold_left]. apply IH; [intros x Hx; apply Hincl; now right|].
  destruct acc as [[slide' log] rendered]. cbn [fst] in Hacc.
  pose proof (@kept_step is_semantic has_background content slide slide' slot_id style
                (Hincl _ (or_introl eq_refl)) Hacc) as Hk.
  destruct ((if is_semantic then inject_semantic else inject_legacy)
              has_background slide' slot_id style) as [[slide'' log'] ok].
  exact Hk.
Qed.

(** The type string of a placeholder is none of the names the header
    filter exempts: it ends with a closing parenthesis. *)
Lemma type_str_not_exempt (e : PlaceholderType) :
  mem_str (type_str e) [lit "TITLE"; lit "CENTER_TITLE"; lit "SUBTITLE"] = false.
Proof.
  assert (Hlast : last (type_str e) 0%N = 41%N).
  { unfold type_str. rewrite !app_assoc. change (lit ")") with [41%N].
    apply last_last. }
  unfold mem_str. cbn [existsb].
  destruct (Py.eqb (type_str e) (lit "TITLE")) eqn:E1.
  { apply eqb_eq in E1. rewrite E1 in Hlast. discriminate Hlast. }
  destruct (Py.eqb (type_str e) (lit "CENTER_TITLE")) eqn:E2.
  { apply eqb_eq in E2. rewrite E2 in Hlast. discriminate Hlast. }
  destruct (Py.eqb (type_str e) (lit "SUBTITLE")) eqn:E3.
  { apply eqb_eq in E3. rewrite E3 in Hlast. discriminate Hlast. }
  reflexivity.
Qed.

End WithRuntime.
End InjectorSteps.

Module InjectorExtras.
Import Py Beautifier Injector InjectorTheory MarkdownTheory InjectorSteps NodeExtras.

(** A title placeholder and a body placeholder, both with the prompt of
    the template. *)
Definition prompt (s : str) : TextFrame :=
  {| paragraphs := [{| p_level := 1; p_alignment := Some LEFT;
                       p_runs := [{| t_text := s; t_bold := None; t_italic := None;
                                     t_size := None; t_color := None |}] |}];
     tf_vertical_anchor := None; tf_auto_size := None |}.

Definition two_placeholders : Slide :=
  [{| ph_idx := 0;
      ph_type := {| pt_name := lit "TITLE"; pt_number := 1 |};
      ph_name := lit "Title 1";
      text_frame := Some (prompt (lit "Click to add title")) |};
   {| ph_idx := 1;
      ph_type := {| pt_name := lit "BODY"; pt_number := 2 |};
      ph_name := lit "Content Placeholder 2";
      text_frame := Some (prompt (lit "Click to add text")) |}].


Section WithRuntime.
Context {rt : Runtime} {cfg : Config}.

(** X16: the loop over the styled content of a slide, by either path,
    changes no placeholder's index, type or name, adds and removes none,
    and leaves every placeholder alone whose index is not the number of a
    key of the content. *)
Theorem render_content_frame (is_semantic has_background : bool)
  (content : Dict.t Style) (slide : Slide) :
  let slide' := fst (fst (render_content is_semantic has_background content slide)) in
  map ph_idx slide' = map ph_idx slide
  /\ map ph_type slide' = map ph_type slide
  /\ map ph_name slide' = map ph_name slide
  /\ forall other,
       (forall key st, In (key, st) content -> int_of_str key <> Some other) ->
       find_placeholder_by_id slide' other = find_placeholder_by_id slide other.
Proof.
  cbv zeta. unfold render_content.
  apply (@kept_fold _ _ is_semantic has_background content content slide (slide, [], [])).
  - apply incl_refl.
  - cbn [fst]. now repeat split.
Qed.

(** X17: the header filter never exempts a placeholder on the legacy path:
    the type it is given is the string of the enumeration member, which is
    none of TITLE, CENTER_TITLE and SUBTITLE, so a title placeholder is
    judged by the patterns like any other. *)
Theorem header_exemption_never_applies (txt : str) (e : PlaceholderType) :
  _is_template_header txt (TypeStr (type_str e))
  = match strip txt with
    | [] => false
    | _ => existsb (fun pattern => re_search_ignorecase pattern (strip txt))
                   HEADER_PATTERNS
    end.
Proof.
  unfold _is_template_header. cbv zeta.
  destruct (strip txt) as [|c t]; [reflexivity|].
  now rewrite type_str_not_exempt.
Qed.



End WithRuntime.



End InjectorExtras.

(* ===================================================================== *)
(** ** registry_builder.py: the slots of a layout *)
(* ===================================================================== *)

Module RegistrySlots.
Import Py.

Definition BULLET_KEYWORDS : list str :=
  [lit "bullet"; lit "point"; lit "list"; lit "agenda"; lit "items"].

Section WithRuntime.
Context {rt : Runtime}.

(** The semantic role, the role name and [max_chars] the loop over the
    enriched shapes gives a placeholder, from its type string, its name
    and its template text. *)
Definition slot_role (ppt_type name : str) (template_text : option str)
  : str * str * Z :=
  let template_text_lower := lower (Beautifier.or_empty template_text) in
  if contains (lit "TITLE") ppt_type || contains (lit "CENTER_TITLE") ppt_type
  then (lit "title", lit "Title", 100%Z)
  else if contains (lit "BODY") ppt_type || contains (lit "OBJECT") ppt_type
          || contains (lit "Content") name
  then
    if existsb (fun kw => contains kw template_text_lower) BULLET_KEYWORDS
    then (lit "bullets", lit "Bullet List", 500%Z)
    else (lit "body", lit "Content", 500%Z)
  else if contains (lit "PICTURE") ppt_type || contains (lit "MEDIA") ppt_type
          || contains (lit "CHART") ppt_type
  then (lit "image_query", lit "Image", 100%Z)
  else if contains (lit "Footer") name || contains (lit "Date") name
  then (lit "footer", name, 50%Z)
  else (lit "body", name, 200%Z).

Definition semantic_role_of (shape : Registry.Shape) (template_text : option str)
  : str :=
  fst (fst (slot_role (Registry.type shape) (Registry.name shape) template_text)).

(** [content_type] of the slot. *)
Definition content_type_of (shape : Registry.Shape) (template_text : option str)
  : str :=
  if Py.eqb (semantic_role_of shape template_text) (lit "image_query")
  then lit "image" else lit "text".

(** The slot as the beautifier reads it from the registry. *)
Definition build_slot (shape : Registry.Shape) (template_text : option str)
  : Beautifier.Slot :=
  {| Beautifier.slot_id := Some (Registry.idx shape);
     Beautifier.role_hint :=
       Beautifier.Value (Registry.role_name (Registry.derive_role_hint shape));
     Beautifier.geometry :=
       {| Beautifier.area_ratio := Some (Registry.area_ratio shape);
          Beautifier.is_circular := Some (Registry.is_circular shape);
          Beautifier.radius := Registry.radius shape |};
     Beautifier.max_chars :=
       Some (snd (slot_role (Registry.type shape) (Registry.name shape)
                            template_text)) |}.

(** The stable identity the slot carries. *)
Definition slot_identity (shape : Registry.Shape) (template_text : option str)
  : Resolver.SlotIdentity :=
  {| Resolver.id_semantic_role := Some (semantic_role_of shape template_text);
     Resolver.id_placeholder_idx := Some (Registry.idx shape);
     Resolver.id_placeholder_type := Some (Registry.type shape);
     Resolver.id_placeholder_name := Some (Registry.name shape) |}.

(** [has_image_slot] of the layout. *)
Definition has_image_slot (shapes : list (Registry.Shape * option str)) : bool :=
  existsb (fun '(shape, template_text) =>
             contains (lit "PICTURE") (Registry.type shape)
             || contains (lit "OBJECT") (Registry.type shape)
             || contains (lit "MEDIA") (Registry.type shape)
             || Py.eqb (semantic_role_of shape template_text) (lit "image_query"))
          shapes.

End WithRuntime.
End RegistrySlots.

Module RegistrySlotsExtras.
Import Py Beautifier RegistrySlots.
Local Open Scope float_scope.

(** A role of body is given only above the area at which the body size
    grows. *)
Lemma body_is_large (shape : Registry.Shape) :
  Registry.derive_role_hint shape = Registry.body ->
  (AREA_THRESHOLD_BODY <? Registry.area_ratio shape) = true.
Proof.
  unfold Registry.derive_role_hint. cbv zeta.
  destruct ((Registry.norm_top shape <? Registry.c0_2)
            && (Registry.norm_height shape <? Registry.c0_2)); [discriminate|].
  destruct (Registry.c0_8 <? Registry.norm_top shape); [discriminate|].
  destruct (Registry.c0_3 <? Registry.area_ratio shape) eqn:E; [intros _; exact E|].
  destruct (_ && _); discriminate.
Qed.

Section WithRuntime.
Context {rt : Runtime}.

(** X20: how the beautifier styles, on the legacy path, a slot the registry
    built, from the role hint and the area the registry recorded for it.
    A body slot always gets 22 points on a slide that is not a title
    slide, never the 18 of the table: the registry calls a shape body only
    above the area at which the table switches.  Only a title slot is
    centred; the others are left to the template. *)
Theorem registry_slot_styling (shape : Registry.Shape) (template_text : option str)
  (slide_role : str) :
  let slot := build_slot shape template_text in
  let hint := field_or (role_hint slot) (Some []) in
  _determine_font_size hint (area_ratio_of (geometry slot)) slide_role
  = (if Py.eqb slide_role ROLE_TITLE
     then match Registry.derive_role_hint shape with
          | Registry.title => 44%Z
          | Registry.body => 28%Z
          | Registry.footer => 11%Z
          | Registry.content => 32%Z
          end
     else match Registry.derive_role_hint shape with
          | Registry.title =>
              if AREA_THRESHOLD_TITLE <? Registry.area_ratio shape
              then 32%Z else 28%Z
          | Registry.body => 22%Z
          | Registry.footer => 10%Z
          | Registry.content =>
              if AREA_THRESHOLD_CONTENT <? Registry.area_ratio shape
              then 16%Z else 14%Z
          end)
  /\ _alignment_for_role hint None None
     = match Registry.derive_role_hint shape with
       | Registry.title => Some (lit "CENTER")
       | _ => None
       end.
Proof.
  cbv zeta. unfold build_slot.
  cbn [role_hint geometry field_or area_ratio_of Beautifier.area_ratio].
  pose proof (body_is_large shape) as Hbody.
  unfold _determine_font_size, _alignment_for_role.
  destruct (Registry.derive_role_hint shape); (split; [|reflexivity]);
    destruct (Py.eqb slide_role ROLE_TITLE); try reflexivity.
  cbn [Registry.role_name or_empty]. change (lower (lit "body")) with (lit "body").
  cbn [contains prefixb lit orb]. now rewrite (Hbody eq_refl).
Qed.

(** X21: every slot the registry builds has one of the five semantic
    roles by which the beautifier recognises semantic content, and a
    positive [max_chars]; it expects an image exactly when its role is
    [image_query], and then the layout is flagged as having an image
    slot. *)
Theorem slot_roles_are_semantic_keys (shape : Registry.Shape)
  (template_text : option str) :
  In (semantic_role_of shape template_text) SEMANTIC_KEYS
  /\ (exists mc, max_chars (build_slot shape template_text) = Some mc
                 /\ (50 <= mc <= 500)%Z)
  /\ (content_type_of shape template_text = lit "image"
      <-> semantic_role_of shape template_text = lit "image_query")
  /\ forall shapes,
       In (shape, template_text) shapes ->
       semantic_role_of shape template_text = lit "image_query" ->
       has_image_slot shapes = true.
Proof.
  split; [|split; [|split]].
  - unfold semantic_role_of, slot_role. cbv zeta. unfold SEMANTIC_KEYS.
    repeat match goal with
           | |- context [if ?c then _ else _] => destruct c
           end; cbn [fst In]; tauto.
  - unfold build_slot, slot_role. cbv zeta. cbn [max_chars].
    repeat match goal with
           | |- context [if ?c then _ else _] => destruct c
           end; cbn [snd]; eexists; (split; [reflexivity | lia]).
  - unfold content_type_of.
    destruct (Py.eqb (semantic_role_of shape template_text) (lit "image_query")) eqn:E.
    + apply InjectorTheory.eqb_eq in E. now split.
    + split; [discriminate|]. intros Hr. rewrite Hr in E. discriminate E.
  - intros shapes Hin Hrole. unfold has_image_slot. apply existsb_exists.
    exists (shape, template_text). split; [exact Hin|].
    rewrite Hrole. cbn [Py.eqb]. apply orb_true_r.
Qed.

End WithRuntime.
End RegistrySlotsExtras.

Module ResolverSteps.
Import Py Injector Resolver.

(** The name of an enumeration member: no white space, no parenthesis. *)
Definition identifier (s : str) : Prop :=
  Forall (fun c => isspace c = false /\ c <> PAREN) s.

Lemma lstrip_nonspace (s : str) :
  Forall (fun c => isspace c = false) s -> lstrip s = s.
Proof.
  destruct s as [|c s]; [reflexivity|].
  intros Hs. inversion Hs as [|? ? Hc _]. cbn [lstrip]. now rewrite Hc.
Qed.

Lemma strip_app_space (n : str) :
  Forall (fun c => isspace c = false) n -> strip (n ++ [32%N]) = n.
Proof.
  intros Hn. unfold strip. destruct n as [|c n]; [reflexivity|].
  assert (Hl : lstrip ((c :: n) ++ [32%N]) = (c :: n) ++ [32%N]).
  { inversion Hn as [|? ? Hc _]. cbn [app lstrip]. now rewrite Hc. }
  rewrite Hl, rev_unit. cbn [lstrip]. change (isspace 32) with true. cbv iota.
  rewrite lstrip_nonspace by now apply Forall_rev.
  apply rev_involutive.
Qed.

Lemma before_app (n rest : str) :
  Forall (fun c => c <> PAREN) n -> before PAREN (n ++ PAREN :: rest) = n.
Proof.
  induction 1 as [|c n Hc _ IH]; cbn [app before].
  - now rewrite N.eqb_refl.
  - apply N.eqb_neq in Hc. now rewrite Hc, IH.
Qed.

Lemma prefixb_app_r (a b c : str) :
  prefixb a b = true -> prefixb a (b ++ c) = true.
Proof.
  revert b. induction a as [|x a IH]; intros b; [reflexivity|].
  destruct b as [|y b]; [discriminate|].
  cbn [app prefixb]. intros H. apply andb_prop in H. destruct H as [-> H].
  now rewrite (IH b H).
Qed.

Lemma contains_app_r (a b c : str) :
  contains a b = true -> contains a (b ++ c) = true.
Proof.
  induction b as [|y b IH].
  - cbn [contains]. rewrite orb_false_r. intros H.
    destruct a; [|discriminate]. destruct c; reflexivity.
  - cbn [app contains]. intros H. apply orb_prop in H. destruct H as [H | H].
    + pose proof (prefixb_app_r a (y :: b) c H) as Hp. cbn [app] in Hp.
      now rewrite Hp.
    + rewrite (IH H). apply orb_true_r.
Qed.

(** The type string of a member, split as the resolver reads it. *)
Lemma type_str_split (e : PlaceholderType) :
  type_str e
  = (pt_name e ++ [32%N]) ++ PAREN :: (str_of_Z (pt_number e) ++ [41%N]).
Proof. unfold type_str. now rewrite <- app_assoc. Qed.

Lemma filter_map_comm {A B} (f : B -> bool) (g : A -> B) (l : list A) :
  filter f (map g l) = map g (filter (fun x => f (g x)) l).
Proof.
  induction l as [|x l IH]; [reflexivity|].
  cbn [map filter]. destruct (f (g x)); cbn [map]; now rewrite IH.
Qed.

End ResolverSteps.

Module ResolverRegistryExtras.
Import Py Injector Resolver ResolverSteps RegistrySlots.
Local Open Scope float_scope.

(** A layout's title and body as the parser and the registry record them. *)
Definition recorded_shapes : list (Registry.Shape * option str) :=
  [({| Registry.name := lit "Title 1"; Registry.type := lit "TITLE (1)";
       Registry.idx := 0;
       Registry.norm_left := 0.0625; Registry.norm_top := 0.0625;
       Registry.norm_width := 0.875; Registry.norm_height := 0.125;
       Registry.area_ratio := 0.109375;
       Registry.is_circular := false; Registry.radius := None;
       Registry.ellipse_axes := None |},
    Some (lit "Click to add title"));
   ({| Registry.name := lit "Content Placeholder 2"; Registry.type := lit "BODY (2)";
       Registry.idx := 1;
       Registry.norm_left := 0.0625; Registry.norm_top := 0.25;
       Registry.norm_width := 0.875; Registry.norm_height := 0.625;
       Registry.area_ratio := 0.546875;
       Registry.is_circular := false; Registry.radius := None;
       Registry.ellipse_axes := None |},
    Some (lit "Click to add text"))].

Definition TITLE_1 : PlaceholderType := {| pt_name := lit "TITLE"; pt_number := 1 |}.

Definition centre_title : Shape :=
  {| ph_idx := 0;
     ph_type := {| pt_name := lit "CENTER_TITLE"; pt_number := 3 |};
     ph_name := lit "Title 1";
     text_frame := None |}.

Section WithRuntime.
Context {rt : Runtime}.

(** X22: the type tier compares names by inclusion.  The resolver reads
    the name of the member back from the recorded type string, and a
    placeholder matches when the name of its own type contains that name:
    a slot recorded as TITLE matches a CENTER_TITLE placeholder. *)
Theorem type_tier_is_substring (e : PlaceholderType) (shape : Shape) :
  identifier (pt_name e) ->
  type_name_of (type_str e) = pt_name e
  /\ (contains (pt_name e) (pt_name (ph_type shape)) = true ->
      by_type (type_name_of (type_str e)) shape = true).
Proof.
  intros Hid.
  assert (Hname : type_name_of (type_str e) = pt_name e).
  { unfold type_name_of. rewrite type_str_split.
    rewrite existsb_app. cbn [existsb]. rewrite N.eqb_refl.
    rewrite orb_true_r. cbn [orb].
    rewrite before_app.
    - apply strip_app_space. eapply Forall_impl; [|exact Hid]. now intros c [Hc _].
    - apply Forall_app. split.
      + eapply Forall_impl; [|exact Hid]. now intros c [_ Hc].
      + constructor; [discriminate | constructor]. }
  split; [exact Hname|].
  intros Hc. rewrite Hname. unfold by_type, type_str. now apply contains_app_r.
Qed.

(** X23: the resolver, given the identities the registry recorded for the
    shapes of a layout, finds for a role the placeholder that has the
    index of the first shape of that role, when the slide has one. *)
Theorem resolver_finds_registry_slot (slide : Slide)
  (shapes rest : list (Registry.Shape * option str)) (semantic_role : str)
  (shape : Registry.Shape) (template_text : option str) (placeholder : Shape) :
  filter (fun s => Py.eqb (semantic_role_of (fst s) (snd s)) semantic_role) shapes
  = (shape, template_text) :: rest ->
  find_placeholder_by_id slide (Registry.idx shape) = Some placeholder ->
  find_placeholder_by_semantic_role slide semantic_role
    (map (fun s => slot_identity (fst s) (snd s)) shapes)
  = Some placeholder.
Proof.
  intros Hfirst Hfind. unfold find_placeholder_by_semantic_role.
  rewrite filter_map_comm.
  rewrite (filter_ext
             (fun s => has_role semantic_role (slot_identity (fst s) (snd s)))
             (fun s => Py.eqb (semantic_role_of (fst s) (snd s)) semantic_role))
    by reflexivity.
  rewrite Hfirst. cbn [map fst snd slot_identity id_placeholder_idx]. cbv zeta.
  unfold find_placeholder_by_id in Hfind. unfold by_idx. now rewrite Hfind.
Qed.

End WithRuntime.

Lemma type_tier_is_substring_witness :
  type_name_of (type_str TITLE_1) = lit "TITLE"
  /\ (contains (lit "TITLE") (lit "CENTER_TITLE") = true ->
      by_type (type_name_of (type_str TITLE_1)) centre_title = true).
Proof.
  apply (@type_tier_is_substring TITLE_1 centre_title).
  repeat constructor; discriminate.
Defined.

Lemma resolver_finds_registry_slot_witness :
  find_placeholder_by_semantic_role InjectorExtras.two_placeholders (lit "body")
    (map (fun s => slot_identity (rt := Sample.runtime) (fst s) (snd s))
         recorded_shapes)
  = nth_error InjectorExtras.two_placeholders 1.
Proof.
  refine (@resolver_finds_registry_slot Sample.runtime InjectorExtras.two_placeholders
            recorded_shapes [] (lit "body") _ _ _ eq_refl eq_refl).
Defined.

End ResolverRegistryExtras.

(* ===================================================================== *)
(** ** The legacy path of the injector *)
(* ===================================================================== *)

Module LegacyExtras.
Import Py Beautifier Injector InjectorTheory InjectorSteps.




Section WithRuntime.
Context {rt : Runtime}.




End WithRuntime.


End LegacyExtras.
